(** * tdl: client bootstrap, authorization gate, extension commands and the
    upload walker

    A shallow embedding of [core/tclient/tclient.go], of the [extension]
    command file and of the upload walker [walk], with the properties of
    the specification that concern them.

    Go values are modelled as follows.
    - [string] is Rocq's [string] (a sequence of bytes); [[]byte(s)] is
      [list_byte_of_string s].
    - [time.Duration] is an integer number of nanoseconds ([Z]).
    - [map[string]struct{}] is a finite set of strings ([gset string]).
    - [error] is the type [error] below; the nil error is [None].
    - Calls that leave the repository (the Telegram client library, the
      file system, the extension manager) are Section variables: every
      theorem holds for whatever they do. *)

From Stdlib Require Import ZArith QArith List String Ascii Lia.
From stdpp Require Import gmap strings list.

Local Open Scope string_scope.

(** ** Errors *)

(** A Go [error] value: [fmt.Errorf]/[errors.New] with a fixed message,
    [errors.Wrap msg] around a cause, or an error produced outside the
    repository, of which only its identity is known. *)
Inductive error : Type :=
| errorString (msg : string)
| wrapError (cause : error) (msg : string)
| foreignError (id : nat).

(** ** The Go standard library functions the walker calls *)

Module filepath.

(** [filepath.Ext]: the loop
    [for i := len(path) - 1; i >= 0 && !os.IsPathSeparator(path[i]); i--]
    returning [path[i:]] at the first ['.'] met; [n] is [i + 1]. *)
Fixpoint ext_loop (path : string) (n : nat) : string :=
  match n with
  | O => ""
  | S i =>
      match String.get i path with
      | None => ""
      | Some c =>
          if Ascii.eqb c "/" then ""
          else if Ascii.eqb c "." then String.substring i (String.length path - i) path
          else ext_loop path i
      end
  end.

Definition Ext (path : string) : string := ext_loop path (String.length path).

End filepath.

Module gostrings.

(** Membership of a byte in a cutset. *)
Definition inCutset (cutset : string) (c : ascii) : bool :=
  existsb (Ascii.eqb c) (list_ascii_of_string cutset).

(** The loop of [strings.TrimRight] over the bytes of [s] taken from its
    end: a byte of the cutset is dropped, the first other byte stops it. *)
Fixpoint trimRight_rev (cutset : string) (rs : list ascii) : list ascii :=
  match rs with
  | [] => []
  | c :: rs' => if inCutset cutset c then trimRight_rev cutset rs' else rs
  end.

(** A string of ASCII characters only. *)
Definition isASCII (s : string) : bool :=
  forallb (fun c => (nat_of_ascii c <? 128)%nat) (list_ascii_of_string s).

(** [strings.TrimRight s cutset]: [s] without its trailing characters
    that occur in [cutset]. For an ASCII cutset Go's implementation
    ([trimRightByte], [trimRightASCII]) works on the bytes of [s], as this
    definition does; for a cutset with other characters Go compares code
    points, which this definition does not model. *)
Definition TrimRight (s cutset : string) : string :=
  string_of_list_ascii (rev (trimRight_rev cutset (rev (list_ascii_of_string s)))).

(** [strings.HasPrefix]. *)
Definition HasPrefix (s pre : string) : bool := String.prefix pre s.

(** [strings.TrimPrefix s prefix]: [s] without the leading [prefix],
    when it has it. *)
Definition TrimPrefix (s pre : string) : string :=
  if HasPrefix s pre
  then String.substring (String.length pre) (String.length s - String.length pre) s
  else s.

(** [strings.TrimSuffix s suffix]: [s] without the one trailing copy of
    [suffix], when it has one. *)
Definition TrimSuffix (s suffix : string) : string :=
  let n := String.length s in
  let k := String.length suffix in
  if (k <=? n)%nat && String.eqb (String.substring (n - k) k s) suffix
  then String.substring 0 (n - k) s
  else s.

End gostrings.

(** ** The upload walker *)

Module up.

(** [type file struct { file, thumb string }]: an upload candidate and
    the path of its thumbnail, empty when it has none. *)
Record file : Type := mkFile { f_file : string; f_thumb : string }.

(** One call of the function handed to [filepath.WalkDir]: the path, whether
    the entry is a directory, and the error [WalkDir] reports for it. *)
Record visit : Type := mkVisit {
  v_path : string;
  v_isDir : bool;
  v_err : option error
}.

Section Walk.

(** [consts.UploadThumbExt]. *)
Variable UploadThumbExt : string.
(** [fsutil.AddPrefixDot] and [filterMap.New]; the map [New] returns
    can be written to. *)
Variable AddPrefixDot : string -> string.
Variable filterMap_New : list string -> (string -> string) -> gset string.
(** [fsutil.PathExists] on the file system the walk runs on. *)
Variable PathExists : string -> bool.
(** The calls [filepath.WalkDir root] makes, in order, as long as the
    function it is given returns nil. *)
Variable WalkDir_visits : string -> list visit.

(** The function literal passed to [filepath.WalkDir], with the slice
    [files] it appends to made explicit. *)
Definition walkFn (includesMap excludesMap : gset string)
    (files : list file) (v : visit) : list file * option error :=
  match v_err v with
  | Some err => (files, Some err)
  | None =>
      if v_isDir v then (files, None)
      else
        let path := v_path v in
        let ext := filepath.Ext path in
        if bool_decide (0 < size includesMap) && negb (bool_decide (ext ∈ includesMap))
        then (files, None)
        else if bool_decide (0 < size excludesMap) && bool_decide (ext ∈ excludesMap)
        then (files, None)
        else
          let t := gostrings.TrimRight path (filepath.Ext path) +:+ UploadThumbExt in
          let f := if PathExists t then mkFile path t else mkFile path "" in
          ((files ++ [f])%list, None)
  end.

(** [filepath.WalkDir root fn]: [fn] is called on each visit in turn; the
    first error it returns ends the walk and is [WalkDir]'s result. (The
    errors [WalkDir] hands to [fn] are those of the file system, not the
    sentinels [SkipDir] and [SkipAll], which [fn] never returns of its
    own.) *)
Fixpoint WalkDir_run (fn : list file -> visit -> list file * option error)
    (vs : list visit) (files : list file) : list file * option error :=
  match vs with
  | [] => (files, None)
  | v :: vs' =>
      match fn files v with
      | (files', Some err) => (files', Some err)
      | (files', None) => WalkDir_run fn vs' files'
      end
  end.

(** The loop [for _, path := range paths] of [walk]; an error of a walk
    returns [nil, err]. *)
Fixpoint walk_paths (includesMap excludesMap : gset string)
    (paths : list string) (files : list file) : list file * option error :=
  match paths with
  | [] => (files, None)
  | path :: paths' =>
      match WalkDir_run (walkFn includesMap excludesMap) (WalkDir_visits path) files with
      | (_, Some err) => ([], Some err)
      | (files', None) => walk_paths includesMap excludesMap paths' files'
      end
  end.

Definition walk (paths includes excludes : list string) : list file * option error :=
  let includesMap := filterMap_New includes AddPrefixDot in
  let excludesMap := filterMap_New excludes AddPrefixDot in
  let excludesMap := {[ UploadThumbExt ]} ∪ excludesMap in
  walk_paths includesMap excludesMap paths [].

End Walk.

(** A visit for which the walk function appends a file, as a test: it is
    not a directory, its extension is in a non-empty include map, and is
    not in a non-empty exclude map. *)
Definition accepts (includesMap excludesMap : gset string) (v : visit) : bool :=
  negb (v_isDir v)
  && negb (bool_decide (0 < size includesMap)
           && negb (bool_decide (filepath.Ext (v_path v) ∈ includesMap)))
  && negb (bool_decide (0 < size excludesMap)
           && bool_decide (filepath.Ext (v_path v) ∈ excludesMap)).

(** The last byte of a string. *)
Definition lastByte (s : string) : option ascii :=
  last (list_ascii_of_string s).

(** The path of a companion thumbnail as the specification words it: the
    file's path with its extension replaced by the thumbnail extension.
    [walk] does not use it; it is what [walk]'s lookup is compared with. *)
Definition replacedExt (path thumbExt : string) : string :=
  gostrings.TrimSuffix path (filepath.Ext path) +:+ thumbExt.

End up.

(** ** Durations *)

Module gotime.

(** [time.Duration]: a count of nanoseconds. *)
Definition Duration : Type := Z.

Definition Millisecond : Duration := 1000000%Z.
Definition Second : Duration := 1000000000%Z.

End gotime.

(** ** Values of the libraries the client is built from *)

Module backoff.

(** [backoff.ExponentialBackOff], as far as [newBackoff] writes it: the
    three fields it assigns, and [preset], which stands for every field
    the library's constructor set and [newBackoff] leaves alone. The
    float64 literal [1.1] is kept as the fraction it denotes. The method
    [NextBackOff], which produces the intervals from these fields, the
    clock and a random source, is the library's and has no definition
    here. *)
Record ExponentialBackOff : Type := mkExponentialBackOff {
  Multiplier : Q;
  MaxElapsedTime : gotime.Duration;
  MaxInterval : gotime.Duration;
  preset : nat
}.

End backoff.

Module telegram.

(** [context.Context] values, known by identity only. *)
Inductive Context : Type := contextOf (id : nat).

(** [tdclock.System], or a clock obtained from [clock.NewNTP]. *)
Inductive Clock : Type :=
| clock_System
| clock_Network (id : nat).

(** [proxy.Direct.DialContext], or [d.DialContext] of the dialer [d]
    obtained from [netutil.NewProxy]. *)
Inductive DialFunc : Type :=
| proxy_Direct_DialContext
| proxyDialContext (d : nat).

(** [dcs.Plain(dcs.PlainOptions{Dial: dial})]. *)
Inductive Resolver : Type := dcs_Plain (Dial : DialFunc).

(** [session.StorageMemory]: the session bytes it holds. *)
Record StorageMemory : Type := mkStorageMemory { data : list Byte.byte }.

(** A [telegram.SessionStorage]: the one the caller configured, known
    by identity only, or a [*session.StorageMemory] allocated by [New]. *)
Inductive SessionStorage : Type :=
| callerSession (id : nat)
| memorySession (m : StorageMemory).

(** [rate.Every(interval)]. *)
Inductive Limit : Type := rate_Every (interval : gotime.Duration).

(** A [telegram.Middleware]: one of the four stages this package builds,
    or a stage of the caller, known by identity only. *)
Inductive Middleware : Type :=
| recovery_New (ctx : Context) (b : backoff.ExponentialBackOff)
| retry_New (max : Z)
| floodwait_NewSimpleWaiter
| ratelimit_New (r : Limit) (burst : Z)
| callerMiddleware (id : nat).

(** A [telegram.UpdateHandler], known by identity only. *)
Inductive UpdateHandler : Type := updateHandlerOf (id : nat).

(** [telegram.DeviceConfig], known by identity only. *)
Inductive DeviceConfig : Type := deviceOf (id : nat).

(** [logctx.From(ctx).Named(name)]. *)
Inductive Logger : Type := logctx_From_Named (ctx : Context) (name : string).

(** The fields of [telegram.Options] that [New] fills in. *)
Record Options : Type := mkOptions {
  Resolver_ : Resolver;
  ReconnectionBackoff : unit -> backoff.ExponentialBackOff;
  UpdateHandler_ : option UpdateHandler;
  Device : DeviceConfig;
  SessionStorage_ : SessionStorage;
  RetryInterval : gotime.Duration;
  MaxRetries : Z;
  DialTimeout : gotime.Duration;
  Middlewares : list Middleware;
  Clock_ : Clock;
  Logger_ : Logger
}.

(** [telegram.NewClient(appID, appHash, opts)]: the client is known by
    what it was built from. *)
Record Client : Type := NewClient {
  appID : Z;
  appHash : string;
  opts : Options
}.

(** [auth.Status]. *)
Record Status : Type := mkStatus { Authorized : bool }.

(** Modelled from the spec: how the client library composes its list of
    middlewares is not among the sources. Section 9 of the specification
    has "an ordered list of (Call) -> Call transforms applied
    outermost-first": with [Handle m] the transform of the stage [m], the
    first stage of the list wraps the call made of all the stages after
    it. *)
Definition chain {Call : Type} (Handle : Middleware -> Call -> Call)
    (ms : list Middleware) (invoke : Call) : Call :=
  fold_right Handle invoke ms.

End telegram.

(** ** [package tclient] *)

Module tclient.

Import telegram.

(** [type Options struct]. [Session] is the caller's session storage,
    known by identity only. *)
Record Options : Type := mkOptions {
  AppID : Z;
  AppHash : string;
  Session : nat;
  Middlewares : list Middleware;
  Proxy : string;
  NTP : string;
  ReconnectTimeout : gotime.Duration;
  Test : string;
  UpdateHandler : option telegram.UpdateHandler
}.

Section Bootstrap.

(** [backoff.NewExponentialBackOff()]. *)
Variable backoff_NewExponentialBackOff : backoff.ExponentialBackOff.
(** [clock.NewNTP] and [netutil.NewProxy]: the value and the error. *)
Variable clock_NewNTP : string -> nat * option error.
Variable netutil_NewProxy : string -> nat * option error.
(** [StoreSession] of a [session.StorageMemory]: the store afterwards
    and the error. *)
Variable StoreSession : StorageMemory -> list Byte.byte -> StorageMemory * option error.
(** [tutil.Device]. *)
Variable tutil_Device : DeviceConfig.

Definition newBackoff (timeout : gotime.Duration) : backoff.ExponentialBackOff :=
  let b := backoff_NewExponentialBackOff in
  let b := backoff.mkExponentialBackOff (11 # 10)
             (backoff.MaxElapsedTime b) (backoff.MaxInterval b) (backoff.preset b) in
  let b := backoff.mkExponentialBackOff (backoff.Multiplier b)
             timeout (backoff.MaxInterval b) (backoff.preset b) in
  let b := backoff.mkExponentialBackOff (backoff.Multiplier b)
             (backoff.MaxElapsedTime b) (10 * gotime.Second)%Z (backoff.preset b) in
  b.

Definition NewDefaultMiddlewares (ctx : Context) (timeout : gotime.Duration)
    : list Middleware :=
  [ recovery_New ctx (newBackoff timeout);
    retry_New 5;
    floodwait_NewSimpleWaiter ].

(** [New]: the client, [None] for a nil pointer, and the error. *)
Definition New (ctx : Context) (o : Options) : option Client * option error :=
  (* process clock *)
  let clockStep :=
    if negb (String.eqb (NTP o) "") then
      match clock_NewNTP (NTP o) with
      | (_, Some err) => inr (wrapError err "create network clock")
      | (c, None) => inl (clock_Network c)
      end
    else inl clock_System in
  match clockStep with
  | inr err => (None, Some err)
  | inl tclock =>
      (* process proxy *)
      let dialStep :=
        if negb (String.eqb (Proxy o) "") then
          match netutil_NewProxy (Proxy o) with
          | (_, Some err) => inr (wrapError err "get dialer")
          | (d, None) => inl (proxyDialContext d)
          end
        else inl proxy_Direct_DialContext in
      match dialStep with
      | inr err => (None, Some err)
      | inl dialer =>
          let opts :=
            telegram.mkOptions
              (dcs_Plain dialer)
              (fun _ => newBackoff (ReconnectTimeout o))
              (UpdateHandler o)
              tutil_Device
              (callerSession (Session o))
              (5 * gotime.Second)%Z
              (-1)%Z
              (10 * gotime.Second)%Z
              (NewDefaultMiddlewares ctx (ReconnectTimeout o) ++ Middlewares o)%list
              tclock
              (logctx_From_Named ctx "td") in
          (* test account session *)
          if negb (String.eqb (Test o) "") then
            let storage := mkStorageMemory [] in
            match StoreSession storage (list_byte_of_string (Test o)) with
            | (_, Some err) => (None, Some (wrapError err "store test session"))
            | (storage, None) =>
                let opts :=
                  telegram.mkOptions
                    (Resolver_ opts) (ReconnectionBackoff opts) (UpdateHandler_ opts)
                    (Device opts)
                    (memorySession storage) (* hook original session storage *)
                    (RetryInterval opts) (MaxRetries opts) (DialTimeout opts)
                    (* add rate limit to avoid frequent flood wait *)
                    (telegram.Middlewares opts ++
                       [ratelimit_New (rate_Every (100 * gotime.Millisecond)%Z) 5])%list
                    (Clock_ opts) (Logger_ opts) in
                (Some (NewClient (AppID o) (AppHash o) opts), None)
            end
          else (Some (NewClient (AppID o) (AppHash o) opts), None)
      end
  end.

End Bootstrap.

(** *** The authorization gate *)

(** The calls of [RunWithAuth]'s function literal that leave it:
    [client.Auth().Status(ctx)] and the caller's task [f(ctx)]. *)
Inductive call : Type := callStatus | callTask.

Definition isTask (c : call) : bool :=
  match c with callTask => true | callStatus => false end.

(** How often the task was called, read off a log of calls. *)
Definition taskCalls (log : list call) : nat := length (filter isTask log).

Section Auth.

(** The state of everything outside the program: the connection, the
    server, the session. *)
Variable W : Type.

(** A computation: it changes the outside world and extends the log of
    calls. *)
Definition M (A : Type) : Type := W * list call -> A * (W * list call).

(** An outside call [op], logged as [c]. *)
Definition perform {A : Type} (c : call) (op : W -> A * W) : M A :=
  fun s => let (a, w') := op (fst s) in (a, (w', (snd s ++ [c])%list)).

(** What [client.Run] does with the function it is given, which it can
    only call: return an error, work on the connection and go on, or
    call the function and go on from the error it returned. *)
Inductive RunScript : Type :=
| runReturn (r : option error)
| runLibrary (upd : W -> W) (k : W -> RunScript)
| runCallback (k : option error -> RunScript).

Fixpoint run_script (d : RunScript) (f : M (option error)) (s : W * list call)
    : option error * (W * list call) :=
  match d with
  | runReturn r => (r, s)
  | runLibrary upd k => let w' := upd (fst s) in run_script (k w') f (w', snd s)
  | runCallback k => let (r, s') := f s in run_script (k r) f s'
  end.

(** Scripts that call the function once and return the error it
    returned, whatever they do to the connection before. *)
Inductive HandsBack : RunScript -> Prop :=
| handsBack_call : HandsBack (runCallback runReturn)
| handsBack_library upd k :
    (forall w, HandsBack (k w)) -> HandsBack (runLibrary upd k).

(** [client.Run] and [client.Auth().Status] of each client. *)
Variable client_Run_script : Client -> RunScript.
Variable auth_Status : Client -> W -> (Status * option error) * W.

Definition client_Run (client : Client) (f : M (option error)) : M (option error) :=
  run_script (client_Run_script client) f.

Definition notAuthorizedError : error :=
  errorString "not authorized. please login first".

(** The function literal [RunWithAuth] hands to [client.Run]. *)
Definition authorized (client : Client) (f : W -> option error * W) : M (option error) :=
  fun s =>
    let '((status, err), s1) := perform callStatus (auth_Status client) s in
    match err with
    | Some e => (Some e, s1)
    | None =>
        if negb (Authorized status) then (Some notAuthorizedError, s1)
        else perform callTask f s1
    end.

Definition RunWithAuth (client : Client) (f : W -> option error * W) : M (option error) :=
  client_Run client (authorized client f).

(** A function that checks the status and returns the not-authorized
    error, and has no task to call. *)
Definition refuse (client : Client) : M (option error) :=
  fun s =>
    let '(_, s1) := perform callStatus (auth_Status client) s in
    (Some notAuthorizedError, s1).

End Auth.

End tclient.

(** ** [package extension] *)

Module extension.

(** [color.Attribute] values in use. *)
Inductive Attribute : Type := FgBlue | FgGreen | FgRed | FgCyan | Bold.

(** An argument of a format string. *)
Inductive arg : Type :=
| argString (s : string)
| argError (e : error).

(** What the commands write to the terminal: [color.New(attrs...).Print]
    of a text, and [fmt.Printf] of a format and its arguments. *)
Inductive output : Type :=
| color_Print (attrs : list Attribute) (text : string)
| fmt_Printf (format : string) (a : list arg).

(** [strings.Repeat]. *)
Fixpoint Repeat (s : string) (count : nat) : string :=
  match count with
  | O => ""
  | S n => s +:+ Repeat s n
  end.

(** The bytes of the bullet and the space after it. *)
Definition bullet : string :=
  String (ascii_of_nat 226) (String (ascii_of_nat 128) (String (ascii_of_nat 162) " ")).

Definition newline : string := String (ascii_of_nat 10) "".

Definition colorPrint (attrs : list Attribute) (padding : nat) (format : string)
    (a : list arg) : list output :=
  [ color_Print attrs (Repeat "  " padding +:+ bullet);
    fmt_Printf (format +:+ newline) a ].

Definition info := colorPrint [FgBlue; Bold].
Definition succ := colorPrint [FgGreen; Bold].
Definition fail := colorPrint [FgRed; Bold].

Section Commands.

(** The state behind the extension manager. *)
Variable W : Type.
(** [em.Install(ctx, target, force)]. *)
Variable em_Install : string -> bool -> W -> option error * W.
(** [extensions.Prefix]. *)
Variable extensions_Prefix : string.
(** [color.New(attrs...).Sprint]. *)
Variable color_Sprint : list Attribute -> string -> string.

Definition normalizeExtName (n : string) : string :=
  let n :=
    match String.index 0 "/" n with
    | Some idx => String.substring (idx + 1) (String.length n - (idx + 1)) n
    | None => n
    end in
  let n := if negb (gostrings.HasPrefix n extensions_Prefix)
           then extensions_Prefix +:+ n else n in
  color_Sprint [Bold; FgCyan] n.

(** [Install]: the error returned, the manager's state and the terminal
    output afterwards. *)
Definition Install (target : string) (force : bool) (s : W * list output)
    : option error * (W * list output) :=
  let out := (snd s ++ info 0 "installing extension %s..."
                         [argString (normalizeExtName target)])%list in
  match em_Install target force (fst s) with
  | (Some err, w) =>
      (None, (w, (out ++ fail 0 "install extension %s failed: %s"
                           [argString (normalizeExtName target); argError err])%list))
  | (None, w) =>
      (None, (w, (out ++ succ 0 "extension %s installed"
                           [argString (normalizeExtName target)])%list))
  end.

(** An installed extension ([extensions.Extension]) and its methods
    [Name], [Owner] and [CurrentVersion]. *)
Variable Extension : Type.
Variable Name : Extension -> string.
Variable Owner : Extension -> string.
Variable CurrentVersion : Extension -> string.
(** [em.List(ctx, includeMetadata)], [em.Upgrade(ctx, e)], [em.Remove(e)]
    and [em.DryRun()]. *)
Variable em_List : bool -> W -> (list Extension * option error) * W.
Variable em_Upgrade : Extension -> W -> option error * W.
Variable em_Remove : Extension -> W -> option error * W.
Variable em_DryRun : W -> bool.
(** [errors.Is] and the two errors of [pkg/extensions] it is asked about. *)
Variable errors_Is : error -> error -> bool.
Variable ErrAlreadyUpToDate : error.
Variable ErrOnlyGitHub : error.
(** [tb.Render()] of a [table.Writer] in [table.StyleColoredDark] with the
    given header and rows. *)
Variable table_Render : list string -> list (list string) -> string.
(** The text [%q] gives for a string ([strconv.Quote]). *)
Variable strconv_Quote : string -> string.

(** The loop [for _, e := range exts] of [List], appending a row to the
    rows of the table. *)
Definition List_rows (exts : list Extension) : list (list string) :=
  fold_left
    (fun rows e => (rows ++ [[normalizeExtName (Name e); Owner e; CurrentVersion e]])%list)
    exts [].

(** [List]: the error returned, the manager's state, and the strings
    given to [fmt.Println] so far. *)
Definition List (s : W * list string) : option error * (W * list string) :=
  match em_List false (fst s) with
  | ((_, Some err), w) => (Some (errorString "list extensions failed"), (w, snd s))
  | ((exts, None), w) =>
      (None,
       (w, (snd s ++ [table_Render ["NAME"; "AUTHOR"; "VERSION"] (List_rows exts)])%list))
  end.

(** The line [Upgrade] prints for an extension once [em.Upgrade] has
    returned. *)
Definition Upgrade_report (e : Extension) (r : option error) (w : W) : list output :=
  match r with
  | Some err =>
      if errors_Is err ErrAlreadyUpToDate then
        succ 1 "extension %s already up-to-date" [argString (normalizeExtName (Name e))]
      else if errors_Is err ErrOnlyGitHub then
        fail 1 "extension %s can't be automatically upgraded by tdl"
          [argString (normalizeExtName (Name e))]
      else
        fail 1 "upgrade extension %s failed: %s"
          [argString (normalizeExtName (Name e)); argError err]
  | None =>
      if em_DryRun w then
        succ 1 "extension %s will be upgraded" [argString (normalizeExtName (Name e))]
      else
        succ 1 "extension %s upgraded" [argString (normalizeExtName (Name e))]
  end.

(** The loop [for _, e := range exts] of [Upgrade]; [ext] is the name
    after [strings.TrimPrefix]. *)
Fixpoint Upgrade_loop (ext : string) (exts : list Extension) (s : W * list output)
    : W * list output :=
  match exts with
  | [] => s
  | e :: exts' =>
      (* ext == "": upgrade all extensions *)
      if negb (String.eqb ext "") && negb (String.eqb (Name e) ext)
      then Upgrade_loop ext exts' s
      else
        let out := (snd s ++ info 0 "upgrading %s..."
                               [argString (normalizeExtName (Name e))])%list in
        let (r, w) := em_Upgrade e (fst s) in
        Upgrade_loop ext exts' (w, (out ++ Upgrade_report e r w)%list)
  end.

Definition Upgrade (ext : string) (s : W * list output)
    : option error * (W * list output) :=
  match em_List (String.eqb ext "") (fst s) with
  | ((_, Some err), w) =>
      (Some (wrapError err "list extensions with metadata"), (w, snd s))
  | ((exts, None), w) =>
      if (length exts =? 0)%nat
      then (Some (errorString "no extensions installed"), (w, snd s))
      else
        let ext := gostrings.TrimPrefix ext extensions_Prefix in
        (None, Upgrade_loop ext exts (w, snd s))
  end.

(** The loop [for _, e := range exts] of [Remove]: [Some] of what the
    body returned at the first extension of that name, [None] when the
    loop ran to its end. *)
Fixpoint Remove_loop (ext : string) (exts : list Extension) (s : W * list output)
    : option (option error * (W * list output)) :=
  match exts with
  | [] => None
  | e :: exts' =>
      if String.eqb ext (Name e) then
        match em_Remove e (fst s) with
        | (Some err, w) =>
            Some (None,
                  (w, (snd s ++ fail 0 "remove extension %s failed: %s"
                                  [argString (normalizeExtName (Name e)); argError err])%list))
        | (None, w) =>
            Some (None,
                  (w, (snd s ++ succ 0 "extension %s removed"
                                  [argString (normalizeExtName (Name e))])%list))
        end
      else Remove_loop ext exts' s
  end.

Definition Remove (ext : string) (s : W * list output)
    : option error * (W * list output) :=
  match em_List false (fst s) with
  | ((_, Some err), w) => (Some (wrapError err "list extensions"), (w, snd s))
  | ((exts, None), w) =>
      let ext := gostrings.TrimPrefix ext extensions_Prefix in
      match Remove_loop ext exts (w, snd s) with
      | Some r => r
      | None =>
          (Some (errorString ("no extension matched " +:+ strconv_Quote ext)),
           (w, snd s))
      end
  end.

End Commands.

End extension.

(** ** The retry stage *)

Module retry.

(** How one underlying call of an RPC ends. *)
Inductive outcome : Type :=
| success
| TransientRPCError
| ProtocolRejectionError.

(** How the retry stage ends. *)
Inductive result : Type :=
| succeeded
| rejected
| exhausted.

(** Modelled from the spec: [core/middlewares/retry], the package behind
    [retry.New], is not among the sources. Following section 4.4 and the
    fifth testable property: the stage has a budget of [max] attempts; it
    issues the call, returns on success, surfaces a protocol-level
    rejection at once, and re-issues the call after a transient failure
    while attempts remain. [next k] is how attempt number [k] ends;
    [made] counts the attempts issued so far. The stage returns how it
    ended and the number of attempts it issued. *)
Fixpoint Handle_loop (remaining : nat) (next : nat -> outcome) (made : nat) : result * nat :=
  match remaining with
  | O => (exhausted, made)
  | S remaining' =>
      match next (S made) with
      | success => (succeeded, S made)
      | ProtocolRejectionError => (rejected, S made)
      | TransientRPCError => Handle_loop remaining' next (S made)
      end
  end.

Definition Handle (max : Z) (next : nat -> outcome) : result * nat :=
  Handle_loop (Z.to_nat max) next 0.

(** The budget of the retry stage of a middleware list, when it has one. *)
Fixpoint budget (ms : list telegram.Middleware) : option Z :=
  match ms with
  | [] => None
  | telegram.retry_New max :: _ => Some max
  | _ :: ms' => budget ms'
  end.

End retry.

(** ** Concrete worlds, used to run the definitions *)

Module fixtures.

(** A thumbnail extension, and stand-ins for [fsutil.AddPrefixDot] and
    [filterMap.New] (neither is among the sources): a dot is put in front
    of an extension that lacks one, and the map holds the key of every
    listed extension. *)
Definition UploadThumbExt : string := ".thumb".

Definition AddPrefixDot (s : string) : string :=
  if gostrings.HasPrefix s "." then s else "." +:+ s.

Definition filterMap_New (l : list string) (keyFn : string -> string) : gset string :=
  list_to_set (keyFn <$> l).

(** A directory [media] holding a video and its thumbnail. *)
Definition media_visits (root : string) : list up.visit :=
  if String.eqb root "media" then
    [ up.mkVisit "media" true None;
      up.mkVisit "media/temp.mp4" false None;
      up.mkVisit "media/temp.thumb" false None ]
  else [].

Definition media_exists (path : string) : bool :=
  existsb (String.eqb path) ["media"; "media/temp.mp4"; "media/temp.thumb"].

Definition walk_media : list string -> list string -> list string
    -> list up.file * option error :=
  up.walk UploadThumbExt AddPrefixDot filterMap_New media_exists media_visits.

(** A directory [shots] holding a picture with its thumbnail, and an
    archive without one. *)
Definition shots_visits (root : string) : list up.visit :=
  if String.eqb root "shots" then
    [ up.mkVisit "shots" true None;
      up.mkVisit "shots/c.jpg" false None;
      up.mkVisit "shots/c.thumb" false None;
      up.mkVisit "shots/cat.tar" false None ]
  else [].

Definition shots_exists (path : string) : bool :=
  existsb (String.eqb path) ["shots"; "shots/c.jpg"; "shots/c.thumb"; "shots/cat.tar"].

Definition walk_shots : list string -> list string -> list string
    -> list up.file * option error :=
  up.walk UploadThumbExt AddPrefixDot filterMap_New shots_exists shots_visits.

(** A directory [clips] whose video has a name that survives trimming. *)
Definition clips_visits (root : string) : list up.visit :=
  if String.eqb root "clips" then
    [ up.mkVisit "clips" true None;
      up.mkVisit "clips/video.mp4" false None;
      up.mkVisit "clips/video.thumb" false None;
      up.mkVisit "clips/notes.txt" false None ]
  else [].

Definition clips_exists (path : string) : bool :=
  existsb (String.eqb path)
    ["clips"; "clips/video.mp4"; "clips/video.thumb"; "clips/notes.txt"].

Definition walk_clips : list string -> list string -> list string
    -> list up.file * option error :=
  up.walk UploadThumbExt AddPrefixDot filterMap_New clips_exists clips_visits.

(** Library stand-ins for [New]: every constructor succeeds, and the
    memory store keeps the bytes it is given. *)
Definition theBackOff : backoff.ExponentialBackOff :=
  backoff.mkExponentialBackOff (3 # 2) 900000000000%Z 60000000000%Z 0.

Definition NewNTP_ok (addr : string) : nat * option error := (1, None).
Definition NewNTP_down (addr : string) : nat * option error := (0, Some (foreignError 7)).
Definition NewProxy_ok (url : string) : nat * option error := (2, None).

Definition StoreSession_keep (m : telegram.StorageMemory) (d : list Byte.byte)
    : telegram.StorageMemory * option error :=
  (telegram.mkStorageMemory d, None).

Definition theDevice : telegram.DeviceConfig := telegram.deviceOf 0.
Definition theContext : telegram.Context := telegram.contextOf 0.

Definition New_ok : telegram.Context -> tclient.Options
    -> option telegram.Client * option error :=
  tclient.New theBackOff NewNTP_ok NewProxy_ok StoreSession_keep theDevice.

(** Options with nothing set, and options of a test account with one
    middleware of the caller. *)
Definition emptyOptions : tclient.Options :=
  tclient.mkOptions 0 "" 0 [] "" "" 0%Z "" None.

Definition testOptions : tclient.Options :=
  tclient.mkOptions 17 "hash" 3 [telegram.callerMiddleware 9] "" "" 0%Z "token" None.

(** A client library that connects, calls the function once and returns
    its error; a server that reports "not authorized"; a task that
    counts its calls in the world. *)
Definition connectThenCall : tclient.RunScript nat :=
  tclient.runLibrary nat (fun w => w) (fun _ => tclient.runCallback nat (tclient.runReturn nat)).

(** A client library that fails to connect and returns the dial error
    without calling the function, and one that calls the function and
    wraps its error. *)
Definition dialFails : tclient.RunScript nat :=
  tclient.runLibrary nat (fun w => w)
    (fun _ => tclient.runReturn nat (Some (foreignError 8))).

Definition wrapsCallback : tclient.RunScript nat :=
  tclient.runLibrary nat (fun w => w)
    (fun _ => tclient.runCallback nat
                (fun r => tclient.runReturn nat
                            match r with
                            | Some e => Some (wrapError e "callback")
                            | None => None
                            end)).

Definition status_unauthorized (c : telegram.Client) (w : nat)
    : (telegram.Status * option error) * nat :=
  ((telegram.mkStatus false, None), w).

Definition status_authorized (c : telegram.Client) (w : nat)
    : (telegram.Status * option error) * nat :=
  ((telegram.mkStatus true, None), w).

Definition countingTask (w : nat) : option error * nat := (None, S w).

Definition theClient : telegram.Client :=
  telegram.NewClient 17 "hash"
    (telegram.mkOptions (telegram.dcs_Plain telegram.proxy_Direct_DialContext)
       (fun _ => theBackOff) None theDevice (telegram.callerSession 3)
       0%Z 0%Z 0%Z [] telegram.clock_System (telegram.logctx_From_Named theContext "td")).

(** An extension manager whose install always fails, respectively
    always succeeds. *)
Definition install_fails (target : string) (force : bool) (w : nat) : option error * nat :=
  (Some (foreignError 1), w).

Definition install_works (target : string) (force : bool) (w : nat) : option error * nat :=
  (None, S w).

Definition plainSprint (attrs : list extension.Attribute) (s : string) : string := s.

(** An extension manager with three extensions, known by their names;
    its state is the list of the extensions it was asked to upgrade or
    remove. Upgrading [bad] fails, removing [bad] fails. *)
Definition installed : list string := ["alpha"; "bad"; "beta"].

Definition list_installed (metadata : bool) (w : list string)
    : (list string * option error) * list string :=
  ((installed, None), w).

Definition list_nothing (metadata : bool) (w : list string)
    : (list string * option error) * list string :=
  (([], None), w).

Definition touch (e : string) (w : list string) : option error * list string :=
  (if String.eqb e "bad" then Some (foreignError 2) else None, (w ++ [e])%list).

Definition neverDry (w : list string) : bool := false.

Definition sameError (e target : error) : bool := false.

Definition noTable (header : list string) (rows : list (list string)) : string := "".

Definition quoted (s : string) : string := "<" +:+ s +:+ ">".

Definition theName (e : string) : string := e.
Definition theOwner (e : string) : string := "owner".
Definition theVersion (e : string) : string := "v1".

Definition Upgrade_installed : string -> list string * list extension.output
    -> option error * (list string * list extension.output) :=
  extension.Upgrade (list string) "tdl-" plainSprint string theName list_installed
    touch neverDry sameError (foreignError 10) (foreignError 11).

Definition Remove_installed : string -> list string * list extension.output
    -> option error * (list string * list extension.output) :=
  extension.Remove (list string) "tdl-" plainSprint string theName list_installed
    touch quoted.

(** Four transient failures, then success. *)
Definition fifthTimeLucky (k : nat) : retry.outcome :=
  if (k <=? 4)%nat then retry.TransientRPCError else retry.success.

End fixtures.

(** * Properties *)

(** ** The walker *)

Section WalkFacts.

Variable UploadThumbExt : string.
Variable AddPrefixDot : string -> string.
Variable filterMap_New : list string -> (string -> string) -> gset string.
Variable PathExists : string -> bool.
Variable WalkDir_visits : string -> list up.visit.

Local Abbreviation walkFn := (up.walkFn UploadThumbExt PathExists).
Local Abbreviation walk_paths := (up.walk_paths UploadThumbExt PathExists WalkDir_visits).

(** The candidate the walk function builds for a path. *)
Local Abbreviation candidate path :=
  (if PathExists (gostrings.TrimRight path (filepath.Ext path) +:+ UploadThumbExt)
   then up.mkFile path (gostrings.TrimRight path (filepath.Ext path) +:+ UploadThumbExt)
   else up.mkFile path "").

(** A visit that passes the tests of the walk function: no error, not a
    directory, included and not excluded. *)
Local Abbreviation accepted inc exc v :=
  (up.v_err v = None ∧ up.v_isDir v = false
   ∧ (size inc = 0 ∨ filepath.Ext (up.v_path v) ∈ inc)
   ∧ (size exc = 0 ∨ filepath.Ext (up.v_path v) ∉ exc)).

(** A set with an element is not empty, which is what [len(m) > 0] asks. *)
Lemma size_pos_of_elem (x : string) (m : gset string) : x ∈ m -> 0 < size m.
Proof.
  intros Hx. destruct (decide (size m = 0)) as [Hz|Hz]; [|lia].
  apply size_empty_inv in Hz. set_solver.
Qed.

(** After [excludesMap[consts.UploadThumbExt] = struct{}{}] the map is
    not empty. *)
Lemma excludesMap_size (m : gset string) : 0 < size ({[UploadThumbExt]} ∪ m).
Proof.
  apply (size_pos_of_elem UploadThumbExt), elem_of_union. left.
  by apply elem_of_singleton.
Qed.

(** One call of the walk function leaves the slice as it is, or appends
    the candidate of an accepted visit. *)
Lemma walkFn_appends (inc exc : gset string) files v :
  fst (walkFn inc exc files v) = files
  ∨ (accepted inc exc v
     ∧ fst (walkFn inc exc files v) = (files ++ [candidate (up.v_path v)])%list).
Proof.
  unfold up.walkFn.
  destruct (up.v_err v); [by left|].
  destruct (up.v_isDir v); [by left|].
  destruct (bool_decide (0 < size inc) && _) eqn:Hinc; [by left|].
  destruct (bool_decide (0 < size exc) && _) eqn:Hexc; [by left|].
  right. split; [|by destruct (PathExists _)].
  split; [done|]. split; [done|].
  apply andb_false_iff in Hinc, Hexc. split.
  - destruct Hinc as [H|H].
    + apply bool_decide_eq_false in H. left. lia.
    + apply negb_false_iff, bool_decide_eq_true in H. by right.
  - destruct Hexc as [H|H]; apply bool_decide_eq_false in H; [left; lia | by right].
Qed.

(** A property of every candidate of an accepted visit holds of every
    file the walk collects. *)
Lemma WalkDir_run_Forall (P : up.file -> Prop) (inc exc : gset string) vs :
  (∀ v, v ∈ vs -> accepted inc exc v -> P (candidate (up.v_path v))) ->
  ∀ files, Forall P files ->
           Forall P (fst (up.WalkDir_run (walkFn inc exc) vs files)).
Proof.
  induction vs as [|v vs IH]; intros HP files Hfiles; simpl; [done|].
  assert (Hstep : Forall P (fst (walkFn inc exc files v))).
  { destruct (walkFn_appends inc exc files v) as [->|[Hacc ->]]; [done|].
    apply Forall_app. split; [done|].
    constructor; [|constructor]. apply HP; [left|done]. }
  destruct (walkFn inc exc files v) as [files' [err|]]; simpl in *; [done|].
  apply IH; [|done]. intros v' Hv'. apply HP. by right.
Qed.

Lemma walk_paths_Forall (P : up.file -> Prop) (inc exc : gset string) paths :
  (∀ p v, p ∈ paths -> v ∈ WalkDir_visits p -> accepted inc exc v ->
          P (candidate (up.v_path v))) ->
  ∀ files, Forall P files -> Forall P (fst (walk_paths inc exc paths files)).
Proof.
  induction paths as [|p paths IH]; intros HP files Hfiles; simpl; [done|].
  assert (Hrun : Forall P (fst (up.WalkDir_run (walkFn inc exc) (WalkDir_visits p) files))).
  { apply WalkDir_run_Forall; [|done]. intros v Hv. apply (HP p); [left|done]. }
  destruct (up.WalkDir_run (walkFn inc exc) (WalkDir_visits p) files)
    as [files' [err|]]; simpl in *; [constructor|].
  apply IH; [|done]. intros p' v Hp'. apply (HP p'). by right.
Qed.

Lemma candidate_file path : up.f_file (candidate path) = path.
Proof. by destruct (PathExists _). Qed.

(** An error ends the walk with no files. *)
Lemma walk_paths_error (inc exc : gset string) paths : ∀ files,
  snd (walk_paths inc exc paths files) = None
  ∨ fst (walk_paths inc exc paths files) = [].
Proof.
  induction paths as [|p paths IH]; intros files; simpl; [by left|].
  destruct (up.WalkDir_run _ _ _) as [files' [err|]]; [by right|]. apply IH.
Qed.

(** C9. Whatever the paths, the include list and the exclude list are,
    no file that [walk] returns has the thumbnail extension: the
    extension is put into the exclusion map after the caller's excludes
    were read, so it is excluded when the excludes are empty and when the
    includes name it. *)
Theorem walk_never_emits_thumbnail (paths includes excludes : list string) :
  Forall (fun f => filepath.Ext (up.f_file f) ≠ UploadThumbExt)
         (fst (up.walk UploadThumbExt AddPrefixDot filterMap_New PathExists
                 WalkDir_visits paths includes excludes)).
Proof.
  unfold up.walk. apply walk_paths_Forall; [|constructor].
  intros p v _ _ (_ & _ & _ & Hexc). rewrite candidate_file. intros Heq.
  pose proof (excludesMap_size (filterMap_New excludes AddPrefixDot)) as Hpos.
  destruct Hexc as [Hz|Hnot]; [lia|].
  apply Hnot, elem_of_union. left. by apply elem_of_singleton.
Qed.

(** The thumbnail of every file [walk] returns whose extension is
    ASCII is the path
    [strings.TrimRight(file, filepath.Ext(file)) + UploadThumbExt] when
    that path exists, and empty when it does not. *)
Theorem walk_thumb_lookup (paths includes excludes : list string) :
  Forall (fun f =>
            gostrings.isASCII (filepath.Ext (up.f_file f)) = true ->
            up.f_thumb f
            = if PathExists (gostrings.TrimRight (up.f_file f) (filepath.Ext (up.f_file f))
                               +:+ UploadThumbExt)
              then gostrings.TrimRight (up.f_file f) (filepath.Ext (up.f_file f))
                     +:+ UploadThumbExt
              else "")
         (fst (up.walk UploadThumbExt AddPrefixDot filterMap_New PathExists
                 WalkDir_visits paths includes excludes)).
Proof.
  unfold up.walk. apply walk_paths_Forall; [|constructor].
  intros p v _ _ _. rewrite candidate_file. intros _. by destruct (PathExists _).
Qed.

(** X7. Every file [walk] returns is the path of a visit of one of the roots
    that carries no error and is not a directory; its extension is in
    the include map unless that map is empty, and is not in the exclude
    map. *)
Theorem walk_files_are_accepted_visits (paths includes excludes : list string) :
  Forall (fun f =>
            (∃ p v, p ∈ paths ∧ v ∈ WalkDir_visits p
                    ∧ up.v_err v = None ∧ up.v_isDir v = false
                    ∧ up.v_path v = up.f_file f)
            ∧ (size (filterMap_New includes AddPrefixDot) = 0
               ∨ filepath.Ext (up.f_file f) ∈ filterMap_New includes AddPrefixDot)
            ∧ filepath.Ext (up.f_file f) ∉ filterMap_New excludes AddPrefixDot)
         (fst (up.walk UploadThumbExt AddPrefixDot filterMap_New PathExists
                 WalkDir_visits paths includes excludes)).
Proof.
  unfold up.walk. apply walk_paths_Forall; [|constructor].
  intros p v Hp Hv (Herr & Hdir & Hinc & Hexc). rewrite candidate_file.
  split; [by exists p, v|]. split; [done|].
  intros Hin.
  pose proof (excludesMap_size (filterMap_New excludes AddPrefixDot)) as Hpos.
  destruct Hexc as [Hz|Hnot]; [lia|].
  apply Hnot, elem_of_union. by right.
Qed.

(** When [walk] returns an error it returns no files. *)
Theorem walk_error_returns_nil (paths includes excludes : list string) :
  snd (up.walk UploadThumbExt AddPrefixDot filterMap_New PathExists
         WalkDir_visits paths includes excludes) = None
  ∨ fst (up.walk UploadThumbExt AddPrefixDot filterMap_New PathExists
           WalkDir_visits paths includes excludes) = [].
Proof. unfold up.walk. apply walk_paths_error. Qed.

End WalkFacts.

(** With an empty exclude list and the thumbnail extension among the
    includes, the thumbnail file of [clips] is still left out, and the
    video gets it as its companion. *)
Example walk_clips_includes_thumb :
  fixtures.walk_clips ["clips"] ["mp4"; "thumb"] []
  = ([up.mkFile "clips/video.mp4" "clips/video.thumb"], None).
Proof. vm_compute. reflexivity. Qed.

Example walk_clips_no_filters :
  fixtures.walk_clips ["clips"] [] []
  = ([up.mkFile "clips/video.mp4" "clips/video.thumb";
      up.mkFile "clips/notes.txt" ""], None).
Proof. vm_compute. reflexivity. Qed.

(** C7. [walk] looks for the thumbnail at
    [strings.TrimRight(path, filepath.Ext(path)) + thumbExt], and
    [TrimRight] takes the extension as a set of characters: of
    [media/temp.mp4] it strips [.mp4] and then the [m] and [p] of [temp].
    The companion [media/temp.thumb] exists, the path looked up is
    [media/te.thumb], and the file is returned without a thumbnail. *)
Theorem walk_misses_existing_thumbnail :
  fixtures.walk_media ["media"] [] [] = ([up.mkFile "media/temp.mp4" ""], None)
  ∧ up.replacedExt "media/temp.mp4" fixtures.UploadThumbExt = "media/temp.thumb"
  ∧ fixtures.media_exists "media/temp.thumb" = true
  ∧ gostrings.TrimRight "media/temp.mp4" (filepath.Ext "media/temp.mp4")
      +:+ fixtures.UploadThumbExt = "media/te.thumb".
Proof. vm_compute. repeat split. Qed.

(** The other way round: [shots/cat.tar] has no companion, and is
    returned with the thumbnail of [shots/c.jpg], because trimming the
    characters of [.tar] off [shots/cat.tar] leaves [shots/c]. *)
Example walk_attaches_foreign_thumbnail :
  fixtures.walk_shots ["shots"] [] []
  = ([up.mkFile "shots/c.jpg" "shots/c.thumb";
      up.mkFile "shots/cat.tar" "shots/c.thumb"], None)
  ∧ fixtures.shots_exists (up.replacedExt "shots/cat.tar" fixtures.UploadThumbExt) = false.
Proof. vm_compute. split; reflexivity. Qed.

(** ** The client bootstrap *)

Section BootstrapFacts.

Import telegram.

Variable backoff_NewExponentialBackOff : backoff.ExponentialBackOff.
Variable clock_NewNTP : string -> nat * option error.
Variable netutil_NewProxy : string -> nat * option error.
Variable StoreSession : StorageMemory -> list Byte.byte -> StorageMemory * option error.
Variable tutil_Device : DeviceConfig.

Local Abbreviation newBackoff := (tclient.newBackoff backoff_NewExponentialBackOff).
Local Abbreviation NewDefaultMiddlewares :=
  (tclient.NewDefaultMiddlewares backoff_NewExponentialBackOff).
Local Abbreviation New :=
  (tclient.New backoff_NewExponentialBackOff clock_NewNTP netutil_NewProxy
     StoreSession tutil_Device).

(** The rate-limit stage of a test account. *)
Local Abbreviation testRateLimit :=
  (ratelimit_New (rate_Every (100 * gotime.Millisecond)%Z) 5).

(** [newBackoff] sets the multiplier to 1.1, the elapsed-time budget
    to the timeout and the ceiling of an interval to 10 seconds, and
    leaves the rest as the library's constructor set it. *)
Lemma newBackoff_fields (timeout : gotime.Duration) :
  newBackoff timeout
  = backoff.mkExponentialBackOff (11 # 10) timeout (10 * gotime.Second)%Z
      (backoff.preset backoff_NewExponentialBackOff).
Proof. reflexivity. Qed.

(** Every client [New] returns was built by one of its two last return
    statements: the options hold the default stages followed by the
    caller's, and for a test account the memory store and the rate
    limit besides. *)
Lemma New_client_inv ctx (o : tclient.Options) (c : Client) :
  fst (New ctx o) = Some c ->
  (tclient.Test o = ""
   ∧ SessionStorage_ (opts c) = callerSession (tclient.Session o)
   ∧ Middlewares (opts c)
     = (NewDefaultMiddlewares ctx (tclient.ReconnectTimeout o)
          ++ tclient.Middlewares o)%list)
  ∨ (tclient.Test o ≠ ""
     ∧ ∃ storage,
         StoreSession (mkStorageMemory []) (list_byte_of_string (tclient.Test o))
         = (storage, None)
         ∧ SessionStorage_ (opts c) = memorySession storage
         ∧ Middlewares (opts c)
           = ((NewDefaultMiddlewares ctx (tclient.ReconnectTimeout o)
                 ++ tclient.Middlewares o) ++ [testRateLimit])%list).
Proof.
  unfold tclient.New.
  destruct (negb (tclient.NTP o =? "")%string);
    [destruct (clock_NewNTP _) as [ck [e|]]; simpl; [discriminate|]|];
    (destruct (negb (tclient.Proxy o =? "")%string);
      [destruct (netutil_NewProxy _) as [d [e|]]; simpl; [discriminate|]|]);
    (destruct (tclient.Test o =? "")%string eqn:Ht; simpl;
      [ apply String.eqb_eq in Ht; intros [= <-]; left; auto
      | apply String.eqb_neq in Ht;
        destruct (StoreSession _ _) as [st [e|]] eqn:Hst; simpl; [discriminate|];
        intros [= <-]; right; split; [done|]; exists st; auto ]).
Qed.

(** C10. With the NTP, Proxy and Test fields empty, [New] returns a
    client and a nil error, whatever the app id, the app hash, the
    session backend, the middlewares, the reconnect timeout and the
    update handler are: none of them is inspected. *)
Theorem New_plain_options_succeeds ctx (o : tclient.Options) :
  tclient.NTP o = "" -> tclient.Proxy o = "" -> tclient.Test o = "" ->
  ∃ c, tclient.New backoff_NewExponentialBackOff clock_NewNTP netutil_NewProxy
         StoreSession tutil_Device ctx o = (Some c, None)
       ∧ appID c = tclient.AppID o
       ∧ appHash c = tclient.AppHash o
       ∧ SessionStorage_ (opts c) = callerSession (tclient.Session o)
       ∧ UpdateHandler_ (opts c) = tclient.UpdateHandler o.
Proof.
  intros Hn Hp Ht. unfold tclient.New. rewrite Hn, Hp, Ht. simpl.
  eexists. split; [reflexivity|]. simpl. auto.
Qed.

(** C3. A client that [New] returns for options with a non-empty Test
    token has, as its session storage, the memory store on which
    [StoreSession] of the token's bytes succeeded, and not a storage of
    the caller; and the rate-limit stage of one call per 100ms with
    burst 5 is the last of its middlewares. *)
Theorem New_test_account ctx (o : tclient.Options) (c : Client) :
  tclient.Test o ≠ "" ->
  fst (tclient.New backoff_NewExponentialBackOff clock_NewNTP netutil_NewProxy
         StoreSession tutil_Device ctx o) = Some c ->
  (∃ storage,
      StoreSession (mkStorageMemory []) (list_byte_of_string (tclient.Test o))
      = (storage, None)
      ∧ SessionStorage_ (opts c) = memorySession storage)
  ∧ (∀ id, SessionStorage_ (opts c) ≠ callerSession id)
  ∧ In (ratelimit_New (rate_Every (100 * gotime.Millisecond)%Z) 5) (Middlewares (opts c))
  ∧ last (Middlewares (opts c)) = Some (ratelimit_New (rate_Every 100000000%Z) 5).
Proof.
  intros Ht Hc.
  destruct (New_client_inv ctx o c Hc) as [[He _]|(_ & st & Hst & Hs & Hm)]; [done|].
  split; [by exists st|]. split.
  - intros id. rewrite Hs. discriminate.
  - rewrite Hm. split.
    + apply in_or_app. right. left. reflexivity.
    + apply last_snoc.
Qed.

(** C5. The middlewares of every client [New] returns start with the
    recovery stage, then the retry stage, then the flood-wait stage;
    the caller's middlewares follow these three in their order, and
    only the rate limit of a test account can come after them. *)
Theorem New_middleware_order ctx (o : tclient.Options) (c : Client) :
  fst (tclient.New backoff_NewExponentialBackOff clock_NewNTP netutil_NewProxy
         StoreSession tutil_Device ctx o) = Some c ->
  ∃ rest,
    Middlewares (opts c)
    = (recovery_New ctx (tclient.newBackoff backoff_NewExponentialBackOff
                           (tclient.ReconnectTimeout o))
         :: retry_New 5
         :: floodwait_NewSimpleWaiter
         :: tclient.Middlewares o ++ rest)%list
    ∧ (rest = [] ∨ rest = [ratelimit_New (rate_Every (100 * gotime.Millisecond)%Z) 5])
    ∧ (∀ i m, tclient.Middlewares o !! i = Some m ->
              Middlewares (opts c) !! (3 + i) = Some m)
    ∧ (∀ (Call : Type) (Handle : Middleware -> Call -> Call) (invoke : Call),
         chain Handle (Middlewares (opts c)) invoke
         = Handle (recovery_New ctx (tclient.newBackoff backoff_NewExponentialBackOff
                                       (tclient.ReconnectTimeout o)))
             (Handle (retry_New 5)
                (Handle floodwait_NewSimpleWaiter
                   (chain Handle (tclient.Middlewares o ++ rest)%list invoke)))).
Proof.
  intros Hc.
  destruct (New_client_inv ctx o c Hc) as [(_ & _ & Hm)|(_ & st & _ & _ & Hm)].
  - exists []. rewrite Hm, app_nil_r. split; [reflexivity|]. split; [by left|].
    split; [|reflexivity]. intros i m Hi. exact Hi.
  - exists [testRateLimit]. rewrite Hm. split; [reflexivity|]. split; [by right|].
    split; [|reflexivity]. intros i m Hi. simpl. apply lookup_app_l_Some. exact Hi.
Qed.

(** X1. [New] fails at the first of its three fallible steps that
    fails, and only there: with a non-empty NTP address whose clock
    constructor fails, it returns nil and that error wrapped with "create
    network clock"; otherwise, with a non-empty Proxy whose dialer
    constructor fails, nil and that error wrapped with "get dialer";
    otherwise, with a non-empty Test token whose store fails, nil and
    that error wrapped with "store test session"; otherwise it returns a
    client and a nil error. *)
Theorem New_client_or_error ctx (o : tclient.Options) :
  match
    (if String.eqb (tclient.NTP o) "" then None
     else snd (clock_NewNTP (tclient.NTP o))),
    (if String.eqb (tclient.Proxy o) "" then None
     else snd (netutil_NewProxy (tclient.Proxy o))),
    (if String.eqb (tclient.Test o) "" then None
     else snd (StoreSession (mkStorageMemory []) (list_byte_of_string (tclient.Test o))))
  with
  | Some e, _, _ =>
      tclient.New backoff_NewExponentialBackOff clock_NewNTP netutil_NewProxy
        StoreSession tutil_Device ctx o
      = (None, Some (wrapError e "create network clock"))
  | None, Some e, _ =>
      tclient.New backoff_NewExponentialBackOff clock_NewNTP netutil_NewProxy
        StoreSession tutil_Device ctx o
      = (None, Some (wrapError e "get dialer"))
  | None, None, Some e =>
      tclient.New backoff_NewExponentialBackOff clock_NewNTP netutil_NewProxy
        StoreSession tutil_Device ctx o
      = (None, Some (wrapError e "store test session"))
  | None, None, None =>
      ∃ c, tclient.New backoff_NewExponentialBackOff clock_NewNTP netutil_NewProxy
             StoreSession tutil_Device ctx o = (Some c, None)
  end.
Proof.
  unfold tclient.New.
  destruct (tclient.NTP o =? "")%string; simpl;
    [|destruct (clock_NewNTP _) as [ck [e|]]; simpl; [done|]];
    (destruct (tclient.Proxy o =? "")%string; simpl;
      [|destruct (netutil_NewProxy _) as [d [e|]]; simpl; [done|]]);
    (destruct (tclient.Test o =? "")%string; simpl;
      [|destruct (StoreSession _ _) as [st [e|]]; simpl; [done|]]);
    by eexists.
Qed.

(** X2. A client that [New] returns for options with an empty Test token
    keeps the caller's session storage, and its middlewares are the
    three default stages followed by the caller's: no rate limit. *)
Theorem New_plain_account ctx (o : tclient.Options) (c : Client) :
  tclient.Test o = "" ->
  fst (tclient.New backoff_NewExponentialBackOff clock_NewNTP netutil_NewProxy
         StoreSession tutil_Device ctx o) = Some c ->
  SessionStorage_ (opts c) = callerSession (tclient.Session o)
  ∧ Middlewares (opts c)
    = (tclient.NewDefaultMiddlewares backoff_NewExponentialBackOff ctx
         (tclient.ReconnectTimeout o) ++ tclient.Middlewares o)%list.
Proof.
  intros Ht Hc.
  destruct (New_client_inv ctx o c Hc) as [(_ & Hs & Hm)|[Hne _]]; [done|].
  by destruct Hne.
Qed.

End BootstrapFacts.

(** The theorems of this section at concrete options. The NTP
    constructor of the first one fails whenever it is called: it is not
    called. *)
Lemma New_plain_options_witness :
  ∃ c, tclient.New fixtures.theBackOff fixtures.NewNTP_down fixtures.NewProxy_ok
         fixtures.StoreSession_keep fixtures.theDevice fixtures.theContext
         fixtures.emptyOptions = (Some c, None)
       ∧ telegram.appID c = 0%Z
       ∧ telegram.appHash c = ""
       ∧ telegram.SessionStorage_ (telegram.opts c) = telegram.callerSession 0
       ∧ telegram.UpdateHandler_ (telegram.opts c) = None.
Proof.
  apply (New_plain_options_succeeds fixtures.theBackOff fixtures.NewNTP_down
           fixtures.NewProxy_ok fixtures.StoreSession_keep fixtures.theDevice
           fixtures.theContext fixtures.emptyOptions); reflexivity.
Defined.

Lemma New_test_account_witness :
  ∃ c, fst (fixtures.New_ok fixtures.theContext fixtures.testOptions) = Some c
       ∧ (∃ storage,
             fixtures.StoreSession_keep (telegram.mkStorageMemory [])
               (list_byte_of_string "token") = (storage, None)
             ∧ telegram.SessionStorage_ (telegram.opts c) = telegram.memorySession storage)
       ∧ (∀ id, telegram.SessionStorage_ (telegram.opts c) ≠ telegram.callerSession id)
       ∧ In (telegram.ratelimit_New (telegram.rate_Every (100 * gotime.Millisecond)%Z) 5)
            (telegram.Middlewares (telegram.opts c))
       ∧ last (telegram.Middlewares (telegram.opts c))
         = Some (telegram.ratelimit_New (telegram.rate_Every 100000000%Z) 5).
Proof.
  eexists. split; [reflexivity|].
  apply (New_test_account fixtures.theBackOff fixtures.NewNTP_ok fixtures.NewProxy_ok
           fixtures.StoreSession_keep fixtures.theDevice fixtures.theContext
           fixtures.testOptions); [discriminate | reflexivity].
Defined.

Lemma New_middleware_order_witness :
  ∃ c, fst (fixtures.New_ok fixtures.theContext fixtures.testOptions) = Some c
       ∧ ∃ rest,
           telegram.Middlewares (telegram.opts c)
           = (telegram.recovery_New fixtures.theContext
                (tclient.newBackoff fixtures.theBackOff 0%Z)
                :: telegram.retry_New 5
                :: telegram.floodwait_NewSimpleWaiter
                :: [telegram.callerMiddleware 9] ++ rest)%list
           ∧ (rest = []
              ∨ rest = [telegram.ratelimit_New
                          (telegram.rate_Every (100 * gotime.Millisecond)%Z) 5])
           ∧ (∀ i m, [telegram.callerMiddleware 9] !! i = Some m ->
                     telegram.Middlewares (telegram.opts c) !! (3 + i) = Some m)
           ∧ (∀ (Call : Type) (Handle : telegram.Middleware -> Call -> Call)
                (invoke : Call),
                telegram.chain Handle (telegram.Middlewares (telegram.opts c)) invoke
                = Handle (telegram.recovery_New fixtures.theContext
                            (tclient.newBackoff fixtures.theBackOff 0%Z))
                    (Handle (telegram.retry_New 5)
                       (Handle telegram.floodwait_NewSimpleWaiter
                          (telegram.chain Handle
                             ([telegram.callerMiddleware 9] ++ rest)%list invoke)))).
Proof.
  eexists. split; [reflexivity|].
  apply (New_middleware_order fixtures.theBackOff fixtures.NewNTP_ok fixtures.NewProxy_ok
           fixtures.StoreSession_keep fixtures.theDevice fixtures.theContext
           fixtures.testOptions). reflexivity.
Defined.

Lemma New_plain_account_witness :
  ∃ c, fst (fixtures.New_ok fixtures.theContext fixtures.emptyOptions) = Some c
       ∧ telegram.SessionStorage_ (telegram.opts c) = telegram.callerSession 0
       ∧ telegram.Middlewares (telegram.opts c)
         = (tclient.NewDefaultMiddlewares fixtures.theBackOff fixtures.theContext 0%Z
              ++ [])%list.
Proof.
  eexists. split; [reflexivity|].
  apply (New_plain_account fixtures.theBackOff fixtures.NewNTP_ok fixtures.NewProxy_ok
           fixtures.StoreSession_keep fixtures.theDevice fixtures.theContext
           fixtures.emptyOptions); reflexivity.
Defined.

(** The middlewares of the test account's client, in full. *)
Example New_test_account_middlewares :
  (λ r, telegram.Middlewares <$> (telegram.opts <$> fst r))
    (fixtures.New_ok fixtures.theContext fixtures.testOptions)
  = Some [ telegram.recovery_New fixtures.theContext
             (backoff.mkExponentialBackOff (11 # 10) 0%Z 10000000000%Z 0);
           telegram.retry_New 5;
           telegram.floodwait_NewSimpleWaiter;
           telegram.callerMiddleware 9;
           telegram.ratelimit_New (telegram.rate_Every 100000000%Z) 5 ].
Proof. reflexivity. Qed.

(** A clock that cannot be built stops [New]. *)
Example New_ntp_failure :
  tclient.New fixtures.theBackOff fixtures.NewNTP_down fixtures.NewProxy_ok
    fixtures.StoreSession_keep fixtures.theDevice fixtures.theContext
    (tclient.mkOptions 17 "hash" 3 [] "" "pool.ntp.org" 0%Z "" None)
  = (None, Some (wrapError (foreignError 7) "create network clock")).
Proof. reflexivity. Qed.

(** ** The authorization gate *)

Section AuthFacts.

Import telegram.

Variable W : Type.
Variable client_Run_script : Client -> tclient.RunScript W.
Variable auth_Status : Client -> W -> (Status * option error) * W.

Local Abbreviation authorized := (tclient.authorized W auth_Status).
Local Abbreviation refuse := (tclient.refuse W auth_Status).
Local Abbreviation RunWithAuth := (tclient.RunWithAuth W client_Run_script auth_Status).
Local Abbreviation client_Run := (tclient.client_Run W client_Run_script).

Lemma authorized_refuses client f s :
  fst (auth_Status client (fst s)) = (mkStatus false, None) ->
  authorized client f s = refuse client s.
Proof.
  intros Hst. unfold tclient.authorized, tclient.refuse, tclient.perform.
  destruct (auth_Status client (fst s)) as [[status err] w'].
  simpl in Hst. injection Hst as -> ->. reflexivity.
Qed.

(** [client.Run] only calls the function it is given: two functions that
    agree on every state give the same run. *)
Lemma run_script_ext (d : tclient.RunScript W) (f g : tclient.M W (option error)) :
  (∀ s, f s = g s) -> ∀ s, tclient.run_script W d f s = tclient.run_script W d g s.
Proof.
  intros Hfg. induction d as [r|upd k IH|k IH]; intros s; simpl.
  - reflexivity.
  - apply IH.
  - rewrite Hfg. destruct (g s) as [r s']. apply IH.
Qed.

Lemma taskCalls_status log :
  tclient.taskCalls (log ++ [tclient.callStatus]) = tclient.taskCalls log.
Proof.
  unfold tclient.taskCalls. rewrite filter_app, length_app. simpl. lia.
Qed.

Lemma refuse_result client s :
  fst (refuse client s) = Some tclient.notAuthorizedError
  ∧ tclient.taskCalls (snd (snd (refuse client s))) = tclient.taskCalls (snd s).
Proof.
  unfold tclient.refuse, tclient.perform.
  destruct (auth_Status client (fst s)) as [a w']. simpl.
  split; [reflexivity | apply taskCalls_status].
Qed.

Lemma run_script_refuse_taskCalls client (d : tclient.RunScript W) : ∀ s,
  tclient.taskCalls (snd (snd (tclient.run_script W d (refuse client) s)))
  = tclient.taskCalls (snd s).
Proof.
  induction d as [r|upd k IH|k IH]; intros s; simpl.
  - reflexivity.
  - rewrite IH. reflexivity.
  - destruct (refuse_result client s) as [_ Hlog].
    destruct (refuse client s) as [r s']. rewrite IH. exact Hlog.
Qed.

Lemma run_script_handsBack client (d : tclient.RunScript W) :
  tclient.HandsBack W d ->
  ∀ s, fst (tclient.run_script W d (refuse client) s) = Some tclient.notAuthorizedError.
Proof.
  induction 1 as [|upd k _ IH]; intros s; simpl.
  - destruct (refuse_result client s) as [Hr _].
    destruct (refuse client s) as [r s']. exact Hr.
  - apply IH.
Qed.


Lemma taskCalls_task log :
  tclient.taskCalls (log ++ [tclient.callTask]) = S (tclient.taskCalls log).
Proof.
  unfold tclient.taskCalls. rewrite filter_app, length_app. simpl. lia.
Qed.

(** With an authorized session the function literal checks the status,
    calls the task on the state the check left, and returns the task's
    error. *)
Lemma authorized_calls_task client f s :
  fst (auth_Status client (fst s)) = (mkStatus true, None) ->
  authorized client f s
  = (fst (f (snd (auth_Status client (fst s)))),
     (snd (f (snd (auth_Status client (fst s)))),
      (snd s ++ [tclient.callStatus; tclient.callTask])%list)).
Proof.
  intros Hst. unfold tclient.authorized, tclient.perform.
  destruct (auth_Status client (fst s)) as [[status err] w'].
  simpl in *. injection Hst as -> ->. simpl.
  destruct (f w') as [r w'']. simpl. by rewrite <- app_assoc.
Qed.

Lemma run_script_authorized_once client f (d : tclient.RunScript W) :
  (∀ w, fst (auth_Status client w) = (mkStatus true, None)) ->
  tclient.HandsBack W d ->
  ∀ s, tclient.taskCalls (snd (snd (tclient.run_script W d (authorized client f) s)))
       = S (tclient.taskCalls (snd s)).
Proof.
  intros Hst. induction 1 as [|upd k _ IH]; intros s; simpl.
  - rewrite authorized_calls_task by apply Hst. simpl.
    change [tclient.callStatus; tclient.callTask]
      with ([tclient.callStatus] ++ [tclient.callTask])%list.
    by rewrite app_assoc, taskCalls_task, taskCalls_status.
  - rewrite IH. reflexivity.
Qed.

(** When the status check reports an authorized session and
    [client.Run] calls its function once, [RunWithAuth] calls the task
    exactly once. *)
Theorem RunWithAuth_authorized_once client (f : W -> option error * W)
    (s : W * list tclient.call) :
  (∀ w, fst (auth_Status client w) = (mkStatus true, None)) ->
  tclient.HandsBack W (client_Run_script client) ->
  tclient.taskCalls
    (snd (snd (tclient.RunWithAuth W client_Run_script auth_Status client f s)))
  = S (tclient.taskCalls (snd s)).
Proof. intros Hst Hback. by apply run_script_authorized_once. Qed.

End AuthFacts.



Lemma RunWithAuth_authorized_once_witness :
  tclient.taskCalls
    (snd (snd (tclient.RunWithAuth nat (fun _ => fixtures.connectThenCall)
                 fixtures.status_authorized fixtures.theClient
                 fixtures.countingTask (0, []))))
  = 1.
Proof.
  apply (RunWithAuth_authorized_once nat (fun _ => fixtures.connectThenCall)
           fixtures.status_authorized fixtures.theClient fixtures.countingTask (0, [])).
  - intros w. reflexivity.
  - apply tclient.handsBack_library. intros _. apply tclient.handsBack_call.
Defined.

(** The library of the fixture hands back the error of its function, and
    the run ends with the not-authorized error after the status check
    alone. *)
Example connectThenCall_handsBack : tclient.HandsBack nat fixtures.connectThenCall.
Proof. apply tclient.handsBack_library. intros _. apply tclient.handsBack_call. Qed.

Example RunWithAuth_not_authorized_run :
  tclient.RunWithAuth nat (fun _ => fixtures.connectThenCall) fixtures.status_unauthorized
    fixtures.theClient fixtures.countingTask (0, [])
  = (Some (errorString "not authorized. please login first"), (0, [tclient.callStatus])).
Proof. reflexivity. Qed.

(** The same client on a server that reports "authorized": the task is
    called once and its result returned. *)
Example RunWithAuth_authorized_runs_task :
  tclient.RunWithAuth nat (fun _ => fixtures.connectThenCall) fixtures.status_authorized
    fixtures.theClient fixtures.countingTask (0, [])
  = (None, (1, [tclient.callStatus; tclient.callTask])).
Proof. reflexivity. Qed.

(** ** The extension commands *)

Section CommandFacts.

Import extension.

Variable W : Type.
Variable em_Install : string -> bool -> W -> option error * W.
Variable extensions_Prefix : string.
Variable color_Sprint : list Attribute -> string -> string.

(** C8. [Install] returns nil on every input. When the manager's install
    fails, what is written to the terminal is a blue bold bullet and the
    line "installing extension %s..." with the extension's name, then a
    red bold bullet and the line "install extension %s failed: %s" with
    the name and the manager's error; the manager is left as its install
    left it. *)
Theorem Install_swallows_failure (target : string) (force : bool) (s : W * list output) :
  fst (Install W em_Install extensions_Prefix color_Sprint target force s) = None
  ∧ ∀ err w,
      em_Install target force (fst s) = (Some err, w) ->
      Install W em_Install extensions_Prefix color_Sprint target force s
      = (None,
         (w,
          (snd s
             ++ [ color_Print [FgBlue; Bold]
                    (String "226" (String "128" (String "162" " ")));
                  fmt_Printf (String.append "installing extension %s..." (String "010" ""))
                    [argString (normalizeExtName extensions_Prefix color_Sprint target)];
                  color_Print [FgRed; Bold]
                    (String "226" (String "128" (String "162" " ")));
                  fmt_Printf
                    (String.append "install extension %s failed: %s" (String "010" ""))
                    [argString (normalizeExtName extensions_Prefix color_Sprint target);
                     argError err] ])%list)).
Proof.
  unfold Install. split.
  - by destruct (em_Install target force (fst s)) as [[err|] w].
  - intros err w ->. by rewrite <- app_assoc.
Qed.

End CommandFacts.

Lemma Install_swallows_failure_witness :
  extension.Install nat fixtures.install_fails "tdl-" fixtures.plainSprint
    "owner/hello" false (0, [])
  = (None,
     (0,
      [ extension.color_Print [extension.FgBlue; extension.Bold]
          (String "226" (String "128" (String "162" " ")));
        extension.fmt_Printf
          (String.append "installing extension %s..." (String "010" ""))
          [extension.argString "tdl-hello"];
        extension.color_Print [extension.FgRed; extension.Bold]
          (String "226" (String "128" (String "162" " ")));
        extension.fmt_Printf
          (String.append "install extension %s failed: %s" (String "010" ""))
          [extension.argString "tdl-hello"; extension.argError (foreignError 1)] ])).
Proof.
  apply (proj2 (Install_swallows_failure nat fixtures.install_fails "tdl-"
                  fixtures.plainSprint "owner/hello" false (0, []))).
  reflexivity.
Defined.

Example Install_failure_output :
  extension.Install nat fixtures.install_fails "tdl-" fixtures.plainSprint
    "owner/hello" false (0, [])
  = (None,
     (0,
      [ extension.color_Print [extension.FgBlue; extension.Bold] extension.bullet;
        extension.fmt_Printf ("installing extension %s..." +:+ extension.newline)
          [extension.argString "tdl-hello"];
        extension.color_Print [extension.FgRed; extension.Bold] extension.bullet;
        extension.fmt_Printf ("install extension %s failed: %s" +:+ extension.newline)
          [extension.argString "tdl-hello"; extension.argError (foreignError 1)] ])).
Proof. reflexivity. Qed.

(** ** The retry stage *)

Section RetryFacts.

Import retry.

Lemma Handle_loop_bound next : ∀ remaining made : nat,
  (made ≤ snd (Handle_loop remaining next made) ≤ made + remaining)%nat.
Proof.
  induction remaining as [|n IH]; intros made; simpl; [lia|].
  destruct (next (S made)); simpl; try lia.
  specialize (IH (S made)). lia.
Qed.

(** Every attempt but the last one issued ended in a transient failure,
    and the result says how the last one ended. *)
Lemma Handle_loop_attempts next : ∀ remaining made : nat,
  (∀ k : nat, made < k < snd (Handle_loop remaining next made) -> next k = TransientRPCError)
  ∧ match fst (Handle_loop remaining next made) with
    | succeeded => next (snd (Handle_loop remaining next made)) = success
    | rejected => next (snd (Handle_loop remaining next made)) = ProtocolRejectionError
    | exhausted => snd (Handle_loop remaining next made) = made + remaining
                   ∧ (0 < remaining ->
                      next (snd (Handle_loop remaining next made)) = TransientRPCError)
    end.
Proof.
  induction remaining as [|n IH]; intros made; simpl.
  - split; [lia|]. split; lia.
  - destruct (next (S made)) eqn:Hn; simpl; try (split; [lia|done]).
    destruct (IH (S made)) as [Hbefore Hlast].
    pose proof (Handle_loop_bound next n (S made)) as Hb.
    split.
    + intros k Hk. destruct (decide (k = S made)) as [->|Hne]; [done|].
      apply Hbefore. lia.
    + destruct (fst (Handle_loop n next (S made))); try done.
      destruct Hlast as [Hsnd Hnext]. split; [lia|]. intros _.
      destruct n as [|n']; [|apply Hnext; lia].
      simpl in *. exact Hn.
Qed.

Variable backoff_NewExponentialBackOff : backoff.ExponentialBackOff.

(** C6. The retry stage of the default middlewares has a budget of 5.
    With that budget the stage issues at most 5 attempts; every attempt
    it issues after the first follows a transient failure, so after a
    protocol-level rejection nothing is re-issued and the rejection is
    the result; and transient failures on attempts 1 to 4 with success
    on attempt 5 give success after exactly 5 attempts. *)
Theorem retry_stage_five_attempts (ctx : telegram.Context) (timeout : gotime.Duration) :
  ∃ max,
    budget (tclient.NewDefaultMiddlewares backoff_NewExponentialBackOff ctx timeout)
    = Some max
    ∧ max = 5%Z
    ∧ (∀ next, (snd (Handle max next) ≤ 5)%nat)
    ∧ (∀ next k, (1 ≤ k < snd (Handle max next))%nat -> next k = TransientRPCError)
    ∧ (∀ next k, (1 ≤ k ≤ snd (Handle max next))%nat -> next k = ProtocolRejectionError ->
                 Handle max next = (rejected, k))
    ∧ (∀ next,
         next 1 = TransientRPCError -> next 2 = TransientRPCError ->
         next 3 = TransientRPCError -> next 4 = TransientRPCError ->
         next 5 = success ->
         Handle max next = (succeeded, 5)).
Proof.
  exists 5%Z. split; [reflexivity|]. split; [reflexivity|].
  assert (Hfive : Z.to_nat 5 = 5) by reflexivity.
  split; [|split; [|split]].
  - intros next. unfold Handle. rewrite Hfive.
    pose proof (Handle_loop_bound next 5 0). lia.
  - intros next k Hk. unfold Handle in *.
    destruct (Handle_loop_attempts next (Z.to_nat 5) 0) as [Hbefore _].
    apply Hbefore. lia.
  - intros next k Hk Hrej. unfold Handle in *.
    destruct (Handle_loop_attempts next (Z.to_nat 5) 0) as [Hbefore Hlast].
    destruct (decide (k = snd (Handle_loop (Z.to_nat 5) next 0))) as [Hlastk|Hne].
    + rewrite <- Hlastk in Hlast.
      destruct (Handle_loop (Z.to_nat 5) next 0) as [r n] eqn:Hrun. simpl in *.
      subst n. destruct r; try congruence.
      destruct Hlast as [_ Hn]. rewrite Hfive in Hn.
      rewrite Hn in Hrej; [discriminate|lia].
    + rewrite Hbefore in Hrej; [discriminate|lia].
  - intros next H1 H2 H3 H4 H5. unfold Handle. rewrite Hfive. simpl.
    rewrite H1, H2, H3, H4, H5. reflexivity.
Qed.

End RetryFacts.

Example retry_fifth_attempt_succeeds :
  retry.Handle 5 fixtures.fifthTimeLucky = (retry.succeeded, 5).
Proof. reflexivity. Qed.

(** ** The commands [List], [Upgrade] and [Remove] *)

Section ManagerFacts.

Import extension.

Variable W : Type.
Variable extensions_Prefix : string.
Variable color_Sprint : list Attribute -> string -> string.
Variable Extension : Type.
Variable Name : Extension -> string.
Variable Owner : Extension -> string.
Variable CurrentVersion : Extension -> string.
Variable em_List : bool -> W -> (list Extension * option error) * W.
Variable em_Upgrade : Extension -> W -> option error * W.
Variable em_Remove : Extension -> W -> option error * W.
Variable em_DryRun : W -> bool.
Variable errors_Is : error -> error -> bool.
Variable ErrAlreadyUpToDate : error.
Variable ErrOnlyGitHub : error.
Variable table_Render : list string -> list (list string) -> string.
Variable strconv_Quote : string -> string.

Local Abbreviation normalizeExtName :=
  (extension.normalizeExtName extensions_Prefix color_Sprint).
Local Abbreviation Upgrade_loop :=
  (extension.Upgrade_loop W extensions_Prefix color_Sprint Extension Name em_Upgrade
     em_DryRun errors_Is ErrAlreadyUpToDate ErrOnlyGitHub).
Local Abbreviation Upgrade :=
  (extension.Upgrade W extensions_Prefix color_Sprint Extension Name em_List em_Upgrade
     em_DryRun errors_Is ErrAlreadyUpToDate ErrOnlyGitHub).
Local Abbreviation Remove_loop :=
  (extension.Remove_loop W extensions_Prefix color_Sprint Extension Name em_Remove).
Local Abbreviation Remove :=
  (extension.Remove W extensions_Prefix color_Sprint Extension Name em_List em_Remove
     strconv_Quote).

(** The extensions [Upgrade] works on for a trimmed name: all of them
    for the empty name, those of that name otherwise. *)
Local Abbreviation selected ext :=
  (filter (fun e0 => ext = "" ∨ Name e0 = ext)).

(** The manager after [em.Upgrade] of each extension of a list in turn,
    whatever each call returned. *)
Local Abbreviation upgraded_all :=
  (fold_left (fun w0 e0 => snd (em_Upgrade e0 w0))).

Lemma List_rows_from (exts : list Extension) : ∀ rows,
  fold_left
    (fun rows e => (rows ++ [[normalizeExtName (Name e); Owner e; CurrentVersion e]])%list)
    exts rows
  = (rows ++ map (fun e => [normalizeExtName (Name e); Owner e; CurrentVersion e]) exts)%list.
Proof.
  induction exts as [|e exts IH]; intros rows; simpl.
  - by rewrite app_nil_r.
  - by rewrite IH, <- app_assoc.
Qed.

Lemma Upgrade_loop_manager ext (exts : list Extension) : ∀ s,
  fst (Upgrade_loop ext exts s) = upgraded_all (selected ext exts) (fst s).
Proof.
  induction exts as [|e exts IH]; intros s; [done|].
  rewrite filter_cons. cbn [extension.Upgrade_loop].
  destruct (String.eqb_spec ext "") as [->|Hne]; cbn [negb andb].
  - rewrite decide_True by (by left). cbn [fold_left].
    destruct (em_Upgrade e (fst s)) as [r w]. by rewrite IH.
  - destruct (String.eqb_spec (Name e) ext) as [Heq|Hneq]; cbn [negb].
    + rewrite decide_True by (by right). cbn [fold_left].
      destruct (em_Upgrade e (fst s)) as [r w]. by rewrite IH.
    + rewrite decide_False by (intros [?|?]; done). apply IH.
Qed.

Lemma Upgrade_loop_skips ext (exts : list Extension) : ∀ s,
  ext ≠ "" -> Forall (fun e => Name e ≠ ext) exts -> Upgrade_loop ext exts s = s.
Proof.
  induction exts as [|e exts IH]; intros s Hne Hall; simpl; [done|].
  inversion Hall as [|? ? He Hrest]; subst.
  destruct (String.eqb_spec ext "") as [|_]; [done|].
  destruct (String.eqb_spec (Name e) ext) as [|_]; [done|]. simpl.
  by apply IH.
Qed.

Lemma Remove_loop_no_match ext (exts : list Extension) s :
  Forall (fun e => Name e ≠ ext) exts -> Remove_loop ext exts s = None.
Proof.
  induction 1 as [|e exts He _ IH]; simpl; [done|].
  destruct (String.eqb_spec ext (Name e)) as [Heq|_]; [by destruct He|done].
Qed.

Lemma Remove_loop_first ext (before after : list Extension) e s :
  Forall (fun e => Name e ≠ ext) before -> Name e = ext ->
  Remove_loop ext (before ++ e :: after) s
  = Some (None,
          (snd (em_Remove e (fst s)),
           (snd s
              ++ match fst (em_Remove e (fst s)) with
                 | Some err =>
                     fail 0 "remove extension %s failed: %s"
                       [argString (normalizeExtName (Name e)); argError err]
                 | None =>
                     succ 0 "extension %s removed" [argString (normalizeExtName (Name e))]
                 end)%list)).
Proof.
  intros Hbefore He. induction Hbefore as [|e' before He' _ IH]; simpl.
  - rewrite <- He, String.eqb_refl. by destruct (em_Remove e (fst s)) as [[err|] w].
  - destruct (String.eqb_spec ext (Name e')) as [Heq|_]; [by destruct He'|]. exact IH.
Qed.

Lemma prefix_append (p n : string) : String.prefix p (p +:+ n) = true.
Proof.
  induction p as [|c p IH]; simpl; [by destruct n|].
  destruct (ascii_dec c c) as [_|Hne]; [exact IH|by destruct Hne].
Qed.

Lemma prefix_self (p : string) : String.prefix p p = true.
Proof.
  induction p as [|c p IH]; simpl; [done|].
  destruct (ascii_dec c c) as [_|Hne]; [exact IH|by destruct Hne].
Qed.

Lemma substring_end (p : string) : String.substring (String.length p) 0 p = "".
Proof. induction p as [|c p IH]; simpl; [done|exact IH]. Qed.

Lemma TrimPrefix_self (p : string) : gostrings.TrimPrefix p p = "".
Proof.
  unfold gostrings.TrimPrefix, gostrings.HasPrefix.
  rewrite prefix_self, Nat.sub_diag. apply substring_end.
Qed.

Lemma selected_all (exts : list Extension) : selected "" exts = exts.
Proof.
  induction exts as [|e exts IH]; [done|].
  rewrite filter_cons, decide_True by (by left). by rewrite IH.
Qed.

(** X9. [List] prints one table whose rows are the normalized name, the
    owner and the version of each listed extension, in the order of the
    listing, and returns nil; when the listing fails it prints nothing
    and returns "list extensions failed" in place of the manager's
    error. *)
Theorem List_prints_one_table (s : W * list string) :
  (∀ exts w,
      em_List false (fst s) = ((exts, None), w) ->
      extension.List W extensions_Prefix color_Sprint Extension Name Owner CurrentVersion
        em_List table_Render s
      = (None,
         (w,
          (snd s
             ++ [table_Render ["NAME"; "AUTHOR"; "VERSION"]
                   (map (fun e => [normalizeExtName (Name e); Owner e; CurrentVersion e])
                      exts)])%list)))
  ∧ (∀ exts err w,
        em_List false (fst s) = ((exts, Some err), w) ->
        extension.List W extensions_Prefix color_Sprint Extension Name Owner CurrentVersion
          em_List table_Render s
        = (Some (errorString "list extensions failed"), (w, snd s))).
Proof.
  unfold extension.List, extension.List_rows. split.
  - intros exts w ->. by rewrite List_rows_from.
  - by intros exts err w ->.
Qed.

(** X10. When the listing gives at least one extension, [Upgrade]
    returns nil, and the manager has been asked to upgrade every listed
    extension of the trimmed name (every listed extension, for the empty
    name), in order: an upgrade that fails does not stop the ones after
    it and is not returned. *)
Theorem Upgrade_tries_every_selected (ext : string) (s : W * list output)
    (exts : list Extension) (w : W) :
  em_List (String.eqb ext "") (fst s) = ((exts, None), w) ->
  exts ≠ [] ->
  fst (extension.Upgrade W extensions_Prefix color_Sprint Extension Name em_List
         em_Upgrade em_DryRun errors_Is ErrAlreadyUpToDate ErrOnlyGitHub ext s) = None
  ∧ fst (snd (extension.Upgrade W extensions_Prefix color_Sprint Extension Name em_List
                em_Upgrade em_DryRun errors_Is ErrAlreadyUpToDate ErrOnlyGitHub ext s))
    = fold_left (fun w e => snd (em_Upgrade e w))
        (filter (fun e => gostrings.TrimPrefix ext extensions_Prefix = ""
                          ∨ Name e = gostrings.TrimPrefix ext extensions_Prefix) exts)
        w.
Proof.
  intros Hlist Hne. unfold extension.Upgrade. rewrite Hlist.
  destruct exts as [|e exts]; [done|]. cbn [length Nat.eqb fst snd].
  split; [done|]. by rewrite Upgrade_loop_manager.
Qed.

(** X11. [Upgrade] returns an error in two cases only, and then without
    printing and without an upgrade: the listing failed (the error is
    wrapped), or it gave no extension ("no extensions installed"). *)
Theorem Upgrade_errors (ext : string) (s : W * list output) :
  (∀ exts err w,
      em_List (String.eqb ext "") (fst s) = ((exts, Some err), w) ->
      Upgrade ext s = (Some (wrapError err "list extensions with metadata"), (w, snd s)))
  ∧ (∀ w,
        em_List (String.eqb ext "") (fst s) = (([], None), w) ->
        Upgrade ext s = (Some (errorString "no extensions installed"), (w, snd s)))
  ∧ (∀ err,
        fst (Upgrade ext s) = Some err ->
        snd (Upgrade ext s) = (snd (em_List (String.eqb ext "") (fst s)), snd s)
        ∧ (err = errorString "no extensions installed"
           ∨ ∃ cause, err = wrapError cause "list extensions with metadata")).
Proof.
  unfold extension.Upgrade. split; [|split].
  - by intros exts err w ->.
  - by intros w ->.
  - intros err. destruct (em_List _ _) as [[exts [e|]] w]; simpl.
    + intros [= <-]. split; [done|]. right. by exists e.
    + destruct exts as [|e exts]; simpl; [|done].
      intros [= <-]. split; [done|]. by left.
Qed.

(** X12. For a name that none of the listed extensions has, [Upgrade]
    returns nil and neither prints nor upgrades anything. *)
Theorem Upgrade_unknown_name_is_silent (ext : string) (s : W * list output)
    (exts : list Extension) (w : W) :
  em_List (String.eqb ext "") (fst s) = ((exts, None), w) ->
  exts ≠ [] ->
  gostrings.TrimPrefix ext extensions_Prefix ≠ "" ->
  Forall (fun e => Name e ≠ gostrings.TrimPrefix ext extensions_Prefix) exts ->
  extension.Upgrade W extensions_Prefix color_Sprint Extension Name em_List
    em_Upgrade em_DryRun errors_Is ErrAlreadyUpToDate ErrOnlyGitHub ext s
  = (None, (w, snd s)).
Proof.
  intros Hlist Hne Hext Hnames. unfold extension.Upgrade. rewrite Hlist.
  destruct exts as [|e exts]; [done|]. cbn [length Nat.eqb].
  by rewrite Upgrade_loop_skips.
Qed.

(** X13. The name that is the prefix alone is trimmed to the empty name
    after the listing was asked for: the listing is made without
    metadata, as for a named extension, and then every listed extension
    is upgraded, as for the empty name. *)
Theorem Upgrade_bare_prefix_upgrades_all (s : W * list output)
    (exts : list Extension) (w : W) :
  extensions_Prefix ≠ "" ->
  em_List false (fst s) = ((exts, None), w) ->
  exts ≠ [] ->
  fst (extension.Upgrade W extensions_Prefix color_Sprint Extension Name em_List
         em_Upgrade em_DryRun errors_Is ErrAlreadyUpToDate ErrOnlyGitHub
         extensions_Prefix s) = None
  ∧ fst (snd (extension.Upgrade W extensions_Prefix color_Sprint Extension Name em_List
                em_Upgrade em_DryRun errors_Is ErrAlreadyUpToDate ErrOnlyGitHub
                extensions_Prefix s))
    = fold_left (fun w e => snd (em_Upgrade e w)) exts w.
Proof.
  intros Hp Hlist Hne. unfold extension.Upgrade.
  apply String.eqb_neq in Hp. rewrite Hp, Hlist.
  destruct exts as [|e exts]; [done|]. cbn [length Nat.eqb fst snd].
  split; [done|].
  by rewrite Upgrade_loop_manager, TrimPrefix_self, selected_all.
Qed.

(** X14. When no listed extension has the trimmed name, [Remove] removes
    nothing, prints nothing and returns the error "no extension matched"
    with the quoted trimmed name. *)
Theorem Remove_no_match (ext : string) (s : W * list output)
    (exts : list Extension) (w : W) :
  em_List false (fst s) = ((exts, None), w) ->
  Forall (fun e => Name e ≠ gostrings.TrimPrefix ext extensions_Prefix) exts ->
  extension.Remove W extensions_Prefix color_Sprint Extension Name em_List em_Remove
    strconv_Quote ext s
  = (Some (errorString ("no extension matched "
                          +:+ strconv_Quote (gostrings.TrimPrefix ext extensions_Prefix))),
     (w, snd s)).
Proof.
  intros Hlist Hnames. unfold extension.Remove. rewrite Hlist.
  by rewrite Remove_loop_no_match.
Qed.

(** X15. [Remove] removes the first listed extension of the trimmed name
    and no other, and returns nil whether the removal failed or not. It
    writes one bullet and one line to the terminal: a red bold bullet
    and "remove extension %s failed: %s" with the name and the error
    when the removal failed, a green bold bullet and "extension %s
    removed" with the name when it did not. *)
Theorem Remove_first_match (ext : string) (s : W * list output)
    (before after : list Extension) (e : Extension) (w : W) :
  em_List false (fst s) = (((before ++ e :: after)%list, None), w) ->
  Forall (fun e' => Name e' ≠ gostrings.TrimPrefix ext extensions_Prefix) before ->
  Name e = gostrings.TrimPrefix ext extensions_Prefix ->
  extension.Remove W extensions_Prefix color_Sprint Extension Name em_List em_Remove
    strconv_Quote ext s
  = (None,
     (snd (em_Remove e w),
      (snd s
         ++ match fst (em_Remove e w) with
            | Some err =>
                [ color_Print [FgRed; Bold]
                    (String "226" (String "128" (String "162" " ")));
                  fmt_Printf
                    (String.append "remove extension %s failed: %s" (String "010" ""))
                    [argString (normalizeExtName (Name e)); argError err] ]
            | None =>
                [ color_Print [FgGreen; Bold]
                    (String "226" (String "128" (String "162" " ")));
                  fmt_Printf (String.append "extension %s removed" (String "010" ""))
                    [argString (normalizeExtName (Name e))] ]
            end)%list)).
Proof.
  intros Hlist Hbefore He. unfold extension.Remove. rewrite Hlist.
  rewrite (Remove_loop_first _ before after e (w, snd s) Hbefore He).
  cbn [fst snd]. destruct (em_Remove e w) as [[err|] w']; reflexivity.
Qed.

(** X16. The name [normalizeExtName] hands to the colour printer always
    starts with the prefix. *)
Theorem normalizeExtName_has_prefix (n : string) :
  ∃ n', extension.normalizeExtName extensions_Prefix color_Sprint n
        = color_Sprint [Bold; FgCyan] n'
        ∧ gostrings.HasPrefix n' extensions_Prefix = true.
Proof.
  unfold extension.normalizeExtName.
  set (m := match String.index 0 "/" n with Some idx => _ | None => n end).
  destruct (gostrings.HasPrefix m extensions_Prefix) eqn:Hm; simpl.
  - by exists m.
  - exists (extensions_Prefix +:+ m). split; [done|]. apply prefix_append.
Qed.

Lemma prefix_empty (s : string) : String.prefix "" s = true.
Proof. by destruct s. Qed.

Lemma index_slash_cons (c : ascii) (s : string) :
  String.index 0 "/" (String c s)
  = if ascii_dec "/" c then Some 0
    else match String.index 0 "/" s with Some i => Some (S i) | None => None end.
Proof.
  change (String.index 0 "/" (String c s))
    with (if String.prefix "/" (String c s) then Some 0
          else match String.index 0 "/" s with Some i => Some (S i) | None => None end).
  change (String.prefix "/" (String c s))
    with (if ascii_dec "/" c then String.prefix "" s else false).
  destruct (ascii_dec "/" c); [by rewrite prefix_empty|done].
Qed.

Lemma index_first_slash (owner n : string) :
  String.index 0 "/" owner = None ->
  String.index 0 "/" (owner +:+ String "/" n) = Some (String.length owner).
Proof.
  induction owner as [|c owner IH]; intros Hnone.
  - change ("" +:+ String "/" n) with (String "/" n).
    rewrite index_slash_cons. by destruct (ascii_dec "/" "/").
  - change (String c owner +:+ String "/" n) with (String c (owner +:+ String "/" n)).
    rewrite index_slash_cons in Hnone |- *.
    destruct (ascii_dec "/" c) as [_|Hc]; [done|].
    destruct (String.index 0 "/" owner) as [i|] eqn:Hi; [done|].
    by rewrite IH.
Qed.

Lemma substring_after (owner n : string) :
  String.substring (String.length owner + 1)
    (String.length (owner +:+ String "/" n) - (String.length owner + 1))
    (owner +:+ String "/" n) = n.
Proof.
  induction owner as [|c owner IH].
  - change ("" +:+ String "/" n) with (String "/" n). simpl.
    rewrite Nat.sub_0_r. clear. induction n as [|a n IHn]; simpl; [done|by rewrite IHn].
  - change (String c owner +:+ String "/" n) with (String c (owner +:+ String "/" n)).
    simpl. exact IH.
Qed.

(** X17. Of a name [owner/name], with no slash in [owner], only [name]
    is kept, with the prefix put in front when [name] lacks it. *)
Theorem normalizeExtName_drops_owner (owner n : string) :
  String.index 0 "/" owner = None ->
  extension.normalizeExtName extensions_Prefix color_Sprint (owner +:+ "/" +:+ n)
  = color_Sprint [Bold; FgCyan]
      (if gostrings.HasPrefix n extensions_Prefix then n else extensions_Prefix +:+ n).
Proof.
  intros Howner. unfold extension.normalizeExtName.
  change ("/" +:+ n) with (String "/" n).
  rewrite (index_first_slash owner n Howner), substring_after.
  by destruct (gostrings.HasPrefix n extensions_Prefix).
Qed.

End ManagerFacts.

(** The theorems on [Upgrade] and [Remove] on the manager of the
    fixtures. Upgrading everything goes on after [bad] failed. *)
Lemma Upgrade_tries_every_selected_witness :
  fst (fixtures.Upgrade_installed "" ([], [])) = None
  ∧ fst (snd (fixtures.Upgrade_installed "" ([], []))) = ["alpha"; "bad"; "beta"].
Proof.
  exact (Upgrade_tries_every_selected (list string) "tdl-" fixtures.plainSprint string
           fixtures.theName fixtures.list_installed fixtures.touch fixtures.neverDry
           fixtures.sameError (foreignError 10) (foreignError 11)
           "" ([], []) fixtures.installed []
           eq_refl ltac:(discriminate)).
Defined.

Lemma Upgrade_unknown_name_witness :
  fixtures.Upgrade_installed "tdl-gamma" ([], []) = (None, ([], [])).
Proof.
  apply (Upgrade_unknown_name_is_silent (list string) "tdl-" fixtures.plainSprint string
           fixtures.theName fixtures.list_installed fixtures.touch fixtures.neverDry
           fixtures.sameError (foreignError 10) (foreignError 11)
           "tdl-gamma" ([], []) fixtures.installed []).
  - reflexivity.
  - discriminate.
  - discriminate.
  - repeat constructor; discriminate.
Defined.

Lemma Upgrade_bare_prefix_witness :
  fst (fixtures.Upgrade_installed "tdl-" ([], [])) = None
  ∧ fst (snd (fixtures.Upgrade_installed "tdl-" ([], []))) = ["alpha"; "bad"; "beta"].
Proof.
  apply (Upgrade_bare_prefix_upgrades_all (list string) "tdl-" fixtures.plainSprint string
           fixtures.theName fixtures.list_installed fixtures.touch fixtures.neverDry
           fixtures.sameError (foreignError 10) (foreignError 11)
           ([], []) fixtures.installed []).
  - discriminate.
  - reflexivity.
  - discriminate.
Defined.

Lemma Remove_no_match_witness :
  fixtures.Remove_installed "tdl-gamma" ([], [])
  = (Some (errorString "no extension matched <gamma>"), ([], [])).
Proof.
  apply (Remove_no_match (list string) "tdl-" fixtures.plainSprint string
           fixtures.theName fixtures.list_installed fixtures.touch fixtures.quoted
           "tdl-gamma" ([], []) fixtures.installed []).
  - reflexivity.
  - repeat constructor; discriminate.
Defined.

Lemma Remove_first_match_witness :
  fixtures.Remove_installed "tdl-bad" ([], [])
  = (None,
     (["bad"],
      [ extension.color_Print [extension.FgRed; extension.Bold]
          (String "226" (String "128" (String "162" " ")));
        extension.fmt_Printf
          (String.append "remove extension %s failed: %s" (String "010" ""))
          [extension.argString "tdl-bad"; extension.argError (foreignError 2)] ])).
Proof.
  apply (Remove_first_match (list string) "tdl-" fixtures.plainSprint string
           fixtures.theName fixtures.list_installed fixtures.touch fixtures.quoted
           "tdl-bad" ([], []) ["alpha"] ["beta"] "bad" []).
  - reflexivity.
  - repeat constructor; discriminate.
  - reflexivity.
Defined.

Lemma normalizeExtName_drops_owner_witness :
  extension.normalizeExtName "tdl-" fixtures.plainSprint ("iyear" +:+ "/" +:+ "tdl-whoami")
  = "tdl-whoami".
Proof.
  apply (normalizeExtName_drops_owner "tdl-" fixtures.plainSprint "iyear" "tdl-whoami").
  reflexivity.
Defined.

(** What upgrading one extension prints when the manager reports that
    the upgrade failed. *)
Example Upgrade_failure_output :
  fixtures.Upgrade_installed "bad" ([], [])
  = (None,
     (["bad"],
      (extension.info 0 "upgrading %s..." [extension.argString "tdl-bad"]
         ++ extension.fail 1 "upgrade extension %s failed: %s"
              [extension.argString "tdl-bad"; extension.argError (foreignError 2)])%list)).
Proof. reflexivity. Qed.

Example Upgrade_nothing_installed :
  extension.Upgrade (list string) "tdl-" fixtures.plainSprint string fixtures.theName
    fixtures.list_nothing fixtures.touch fixtures.neverDry fixtures.sameError
    (foreignError 10) (foreignError 11) "" ([], [])
  = (Some (errorString "no extensions installed"), ([], [])).
Proof. reflexivity. Qed.

(** ** The thumbnail lookup and the extension of a path *)

Section TrimFacts.

Lemma append_cons (c : ascii) (a b : string) : String c a +:+ b = String c (a +:+ b).
Proof. reflexivity. Qed.

Lemma append_empty_r (a : string) : a +:+ "" = a.
Proof. induction a as [|c a IH]; [done|]. by rewrite append_cons, IH. Qed.

Lemma length_append (a b : string) :
  String.length (a +:+ b) = String.length a + String.length b.
Proof. induction a as [|c a IH]; [done|]. rewrite append_cons. simpl. by rewrite IH. Qed.

Lemma substring_all (b : string) : String.substring 0 (String.length b) b = b.
Proof. induction b as [|c b IH]; simpl; [done|by rewrite IH]. Qed.

Lemma substring_append_r (a b : string) :
  String.substring (String.length a) (String.length b) (a +:+ b) = b.
Proof.
  induction a as [|c a IH]; [apply substring_all|]. rewrite append_cons. exact IH.
Qed.

Lemma substring_append_l (a b : string) :
  String.substring 0 (String.length a) (a +:+ b) = a.
Proof.
  induction a as [|c a IH]; [by destruct b|]. rewrite append_cons. simpl. by rewrite IH.
Qed.

(** A string is what is before an index followed by what is from it on. *)
Lemma substring_split (s : string) : ∀ i : nat,
  (i ≤ String.length s)%nat ->
  s = String.substring 0 i s +:+ String.substring i (String.length s - i) s.
Proof.
  induction s as [|c s IH]; intros i Hi.
  - destruct i; [done|simpl in Hi; lia].
  - destruct i as [|i].
    + change (String.substring 0 0 (String c s)) with "".
      rewrite Nat.sub_0_r. symmetry. apply substring_all.
    + simpl in Hi. simpl. rewrite append_cons. f_equal. apply IH. lia.
Qed.

Lemma list_ascii_of_append (a b : string) :
  list_ascii_of_string (a +:+ b)
  = (list_ascii_of_string a ++ list_ascii_of_string b)%list.
Proof. induction a as [|c a IH]; [done|]. rewrite append_cons. simpl. by rewrite IH. Qed.

(** The loop of [filepath.Ext] returns the empty string or the part of
    the path from one of its indices on. *)
Lemma ext_loop_suffix (path : string) : ∀ n : nat,
  (n ≤ String.length path)%nat ->
  filepath.ext_loop path n = ""
  ∨ ∃ i : nat, (i < n)%nat
      ∧ filepath.ext_loop path n = String.substring i (String.length path - i) path.
Proof.
  induction n as [|i IH]; intros Hn; simpl; [by left|].
  destruct (String.get i path) as [c|]; [|by left].
  destruct (Ascii.eqb c "/"); [by left|].
  destruct (Ascii.eqb c ".").
  - right. exists i. split; [lia|done].
  - destruct IH as [->|(j & Hj & ->)]; [lia|by left|].
    right. exists j. split; [lia|done].
Qed.

(** [filepath.Ext] returns an end of the path. *)
Lemma Ext_is_suffix (path : string) : ∃ stem, path = stem +:+ filepath.Ext path.
Proof.
  unfold filepath.Ext.
  destruct (ext_loop_suffix path (String.length path)) as [->|(i & Hi & ->)]; [done| |].
  - exists path. by rewrite append_empty_r.
  - exists (String.substring 0 i path). apply substring_split. lia.
Qed.

Lemma TrimSuffix_append (stem ext : string) :
  gostrings.TrimSuffix (stem +:+ ext) ext = stem.
Proof.
  unfold gostrings.TrimSuffix. rewrite length_append.
  replace (String.length stem + String.length ext - String.length ext)
    with (String.length stem) by lia.
  rewrite substring_append_r, String.eqb_refl, substring_append_l.
  destruct (String.length ext <=? String.length stem + String.length ext)%nat eqn:Hle;
    [done|].
  apply Nat.leb_gt in Hle. lia.
Qed.

Lemma trimRight_rev_cutset (cutset : string) (drop keep : list ascii) :
  Forall (fun c => gostrings.inCutset cutset c = true) drop ->
  gostrings.trimRight_rev cutset (drop ++ keep) = gostrings.trimRight_rev cutset keep.
Proof. induction 1 as [|c drop Hc _ IH]; simpl; [done|]. by rewrite Hc. Qed.

Lemma inCutset_self (ext : string) :
  Forall (fun c => gostrings.inCutset ext c = true) (list_ascii_of_string ext).
Proof.
  apply Forall_forall. intros c Hc. unfold gostrings.inCutset.
  apply existsb_exists. exists c. split; [by apply list_elem_of_In|apply Ascii.eqb_refl].
Qed.

(** [strings.TrimRight] takes the extension off and stops, when the byte
    before the extension is none of the extension's bytes. *)
Lemma TrimRight_append (stem ext : string) :
  match up.lastByte stem with
  | Some c => gostrings.inCutset ext c = false
  | None => True
  end ->
  gostrings.TrimRight (stem +:+ ext) ext = stem.
Proof.
  intros Hlast. unfold gostrings.TrimRight, up.lastByte in *.
  rewrite list_ascii_of_append, rev_app_distr, trimRight_rev_cutset
    by (apply Forall_rev, inCutset_self).
  destruct (last (list_ascii_of_string stem)) as [c|] eqn:Hl.
  - apply last_Some in Hl as [l' Hl']. rewrite Hl', rev_app_distr. simpl.
    rewrite Hlast. change (c :: rev l') with (rev [c] ++ rev l')%list.
    rewrite <- rev_app_distr, rev_involutive, <- Hl'.
    apply string_of_list_ascii_of_string.
  - apply last_None in Hl. rewrite Hl. simpl.
    rewrite <- (string_of_list_ascii_of_string stem), Hl. reflexivity.
Qed.

End TrimFacts.

Section WalkResultFacts.

Variable UploadThumbExt : string.
Variable AddPrefixDot : string -> string.
Variable filterMap_New : list string -> (string -> string) -> gset string.
Variable PathExists : string -> bool.
Variable WalkDir_visits : string -> list up.visit.

Local Abbreviation walkFn := (up.walkFn UploadThumbExt PathExists).
Local Abbreviation walk_paths := (up.walk_paths UploadThumbExt PathExists WalkDir_visits).

(** The file the walk function appends for a path. *)
Local Abbreviation candidate path :=
  (if PathExists (gostrings.TrimRight path (filepath.Ext path) +:+ UploadThumbExt)
   then up.mkFile path (gostrings.TrimRight path (filepath.Ext path) +:+ UploadThumbExt)
   else up.mkFile path "").

(** The byte before the extension of [path], when there is one, is none
    of the extension's bytes. *)
Local Abbreviation stemEndsOutsideExt path :=
  (match up.lastByte (gostrings.TrimSuffix path (filepath.Ext path)) with
   | Some c => gostrings.inCutset (filepath.Ext path) c = false
   | None => True
   end).

(** [strings.TrimRight(path, filepath.Ext(path))] is the path
    without its extension when the byte before the extension is none of
    the extension's bytes (as in [clips/video.mp4], and unlike
    [media/temp.mp4]). *)
Theorem TrimRight_Ext_is_TrimSuffix (path : string) :
  match up.lastByte (gostrings.TrimSuffix path (filepath.Ext path)) with
  | Some c => gostrings.inCutset (filepath.Ext path) c = false
  | None => True
  end ->
  gostrings.TrimRight path (filepath.Ext path)
  = gostrings.TrimSuffix path (filepath.Ext path).
Proof.
  destruct (Ext_is_suffix path) as [stem Hpath].
  remember (filepath.Ext path) as ext eqn:Hext. clear Hext.
  rewrite Hpath, TrimSuffix_append. apply TrimRight_append.
Qed.

(** X8. For every file [walk] returns whose extension is ASCII and
    whose name, without the extension, does not end in one of the
    extension's bytes, the thumbnail is the path with the extension
    replaced by the thumbnail extension when that path exists, and empty
    when it does not. *)
Theorem walk_thumb_is_companion (paths includes excludes : list string) :
  Forall (fun f =>
            gostrings.isASCII (filepath.Ext (up.f_file f)) = true ->
            match up.lastByte (gostrings.TrimSuffix (up.f_file f)
                                 (filepath.Ext (up.f_file f))) with
            | Some c => gostrings.inCutset (filepath.Ext (up.f_file f)) c = false
            | None => True
            end ->
            up.f_thumb f
            = if PathExists (up.replacedExt (up.f_file f) UploadThumbExt)
              then up.replacedExt (up.f_file f) UploadThumbExt
              else "")
         (fst (up.walk UploadThumbExt AddPrefixDot filterMap_New PathExists
                 WalkDir_visits paths includes excludes)).
Proof.
  unfold up.walk. apply walk_paths_Forall; [|constructor].
  intros p v _ _ _. rewrite candidate_file. intros _ Hstem.
  unfold up.replacedExt. rewrite <- (TrimRight_Ext_is_TrimSuffix _ Hstem).
  by destruct (PathExists _).
Qed.

(** The files of one walk: the error is the first one a visit carries,
    and without an error every accepted visit has appended its file. *)
Lemma WalkDir_run_result (inc exc : gset string) (vs : list up.visit) : ∀ files,
  snd (up.WalkDir_run (walkFn inc exc) vs files) = head (omap up.v_err vs)
  ∧ (head (omap up.v_err vs) = None ->
     fst (up.WalkDir_run (walkFn inc exc) vs files)
     = (files ++ map (fun v => candidate (up.v_path v))
                   (List.filter (up.accepts inc exc) vs))%list).
Proof.
  induction vs as [|v vs IH]; intros files; simpl.
  - split; [done|]. intros _. by rewrite app_nil_r.
  - unfold up.walkFn at 1 3, up.accepts.
    destruct (up.v_err v) as [err|] eqn:Herr; simpl; [done|].
    destruct (up.v_isDir v); simpl; [apply IH|].
    destruct (bool_decide (0 < size inc) && _); simpl; [apply IH|].
    destruct (bool_decide (0 < size exc) && _); simpl; [apply IH|].
    destruct (IH (files ++ [candidate (up.v_path v)])%list) as [Hsnd Hfst].
    split; [exact Hsnd|]. intros Hnone. rewrite (Hfst Hnone).
    by rewrite <- app_assoc.
Qed.

Lemma head_omap_app (vs ws : list up.visit) :
  head (omap up.v_err (vs ++ ws)%list)
  = match head (omap up.v_err vs) with
    | Some err => Some err
    | None => head (omap up.v_err ws)
    end.
Proof.
  induction vs as [|v vs IH]; simpl; [by destruct (head _)|].
  destruct (up.v_err v); simpl; [done|exact IH].
Qed.

Lemma walk_paths_result (inc exc : gset string) (paths : list string) : ∀ files,
  walk_paths inc exc paths files
  = match head (omap up.v_err (flat_map WalkDir_visits paths)) with
    | Some err => ([], Some err)
    | None =>
        ((files ++ map (fun v => candidate (up.v_path v))
                     (List.filter (up.accepts inc exc)
                        (flat_map WalkDir_visits paths)))%list,
         None)
    end.
Proof.
  induction paths as [|p paths IH]; intros files; simpl.
  - by rewrite app_nil_r.
  - rewrite head_omap_app.
    destruct (WalkDir_run_result inc exc (WalkDir_visits p) files) as [Hsnd Hfst].
    destruct (up.WalkDir_run (walkFn inc exc) (WalkDir_visits p) files) as [files' r].
    simpl in Hsnd, Hfst. rewrite <- Hsnd.
    destruct r as [err|]; [done|].
    rewrite IH, (Hfst (eq_sym Hsnd)), List.filter_app, map_app, <- app_assoc.
    reflexivity.
Qed.

(** X6. When the extension of every visited path is ASCII, [walk] is
    determined by the visits of its roots taken in order: when one of
    them carries an error, the first such error is returned with no
    files; otherwise the result is one file for each visit that is not a
    directory and passes the include and exclude maps, in the order of
    the visits, with the thumbnail the lookup finds for it. *)
Theorem walk_result (paths includes excludes : list string) :
  Forall (fun v => gostrings.isASCII (filepath.Ext (up.v_path v)) = true)
         (flat_map WalkDir_visits paths) ->
  up.walk UploadThumbExt AddPrefixDot filterMap_New PathExists WalkDir_visits
    paths includes excludes
  = match head (omap up.v_err (flat_map WalkDir_visits paths)) with
    | Some err => ([], Some err)
    | None =>
        (map (fun v =>
                if PathExists (gostrings.TrimRight (up.v_path v) (filepath.Ext (up.v_path v))
                                 +:+ UploadThumbExt)
                then up.mkFile (up.v_path v)
                       (gostrings.TrimRight (up.v_path v) (filepath.Ext (up.v_path v))
                          +:+ UploadThumbExt)
                else up.mkFile (up.v_path v) "")
           (List.filter
              (up.accepts (filterMap_New includes AddPrefixDot)
                 ({[UploadThumbExt]} ∪ filterMap_New excludes AddPrefixDot))
              (flat_map WalkDir_visits paths)),
         None)
    end.
Proof. intros _. unfold up.walk. by rewrite walk_paths_result. Qed.

End WalkResultFacts.

Lemma TrimRight_Ext_is_TrimSuffix_witness :
  gostrings.TrimRight "clips/video.mp4" (filepath.Ext "clips/video.mp4")
  = gostrings.TrimSuffix "clips/video.mp4" (filepath.Ext "clips/video.mp4").
Proof. apply (TrimRight_Ext_is_TrimSuffix "clips/video.mp4"). reflexivity. Defined.

(** The walk of two roots is the walk of the first followed by the walk
    of the second. *)
Example walk_two_roots :
  up.walk fixtures.UploadThumbExt fixtures.AddPrefixDot fixtures.filterMap_New
    (fun p => fixtures.clips_exists p || fixtures.media_exists p)
    (fun root => (fixtures.clips_visits root ++ fixtures.media_visits root)%list)
    ["media"; "clips"] [] ["txt"]
  = ([up.mkFile "media/temp.mp4" "";
      up.mkFile "clips/video.mp4" "clips/video.thumb"], None).
Proof. vm_compute. reflexivity. Qed.

(** ** More on the client bootstrap and the authorization gate *)

Section ClientFacts.

Import telegram.

Variable backoff_NewExponentialBackOff : backoff.ExponentialBackOff.
Variable clock_NewNTP : string -> nat * option error.
Variable netutil_NewProxy : string -> nat * option error.
Variable StoreSession : StorageMemory -> list Byte.byte -> StorageMemory * option error.
Variable tutil_Device : DeviceConfig.

(** X3. Every client [New] returns has the application id and hash of
    the options, a retry interval of 5 seconds, unlimited retries, a dial
    timeout of 10 seconds and a reconnection backoff whose budget is the
    reconnect timeout; its clock is the system clock exactly when NTP is
    empty and the network clock of that address otherwise; it dials
    directly exactly when Proxy is empty and through the proxy dialer
    of that address otherwise. *)
Theorem New_client_settings ctx (o : tclient.Options) (c : Client) :
  fst (tclient.New backoff_NewExponentialBackOff clock_NewNTP netutil_NewProxy
         StoreSession tutil_Device ctx o) = Some c ->
  (appID c = tclient.AppID o ∧ appHash c = tclient.AppHash o)
  ∧ (RetryInterval (opts c) = 5000000000%Z
     ∧ MaxRetries (opts c) = (-1)%Z
     ∧ DialTimeout (opts c) = 10000000000%Z)
  ∧ (backoff.MaxElapsedTime (ReconnectionBackoff (opts c) tt) = tclient.ReconnectTimeout o
     ∧ backoff.MaxInterval (ReconnectionBackoff (opts c) tt) = 10000000000%Z)
  ∧ (if String.eqb (tclient.NTP o) "" then Clock_ (opts c) = clock_System
     else ∃ id, clock_NewNTP (tclient.NTP o) = (id, None)
                ∧ Clock_ (opts c) = clock_Network id)
  ∧ (if String.eqb (tclient.Proxy o) "" then
       Resolver_ (opts c) = dcs_Plain proxy_Direct_DialContext
     else ∃ d, netutil_NewProxy (tclient.Proxy o) = (d, None)
               ∧ Resolver_ (opts c) = dcs_Plain (proxyDialContext d)).
Proof.
  unfold tclient.New.
  destruct (tclient.NTP o =? "")%string; simpl;
    [|destruct (clock_NewNTP _) as [ck [e|]] eqn:Hck; simpl; [discriminate|]];
    (destruct (tclient.Proxy o =? "")%string; simpl;
      [|destruct (netutil_NewProxy _) as [d [e|]] eqn:Hd; simpl; [discriminate|]]);
    (destruct (tclient.Test o =? "")%string; simpl;
      [|destruct (StoreSession _ _) as [st [e|]]; simpl; [discriminate|]]);
    intros [= <-]; simpl; repeat split; eauto.
Qed.

End ClientFacts.

Section GateFacts.

Import telegram.

Variable W : Type.
Variable client_Run_script : Client -> tclient.RunScript W.
Variable auth_Status : Client -> W -> (Status * option error) * W.

Local Abbreviation authorized := (tclient.authorized W auth_Status).

(** A function that never calls the task and always returns the error
    [e] makes every run end without a call of the task, and with [e]
    when the library hands back the error of its function. *)
Lemma run_script_constant (g : tclient.M W (option error)) (e : error)
    (d : tclient.RunScript W) :
  (∀ s, fst (g s) = Some e
        ∧ tclient.taskCalls (snd (snd (g s))) = tclient.taskCalls (snd s)) ->
  ∀ s, tclient.taskCalls (snd (snd (tclient.run_script W d g s))) = tclient.taskCalls (snd s)
       ∧ (tclient.HandsBack W d -> fst (tclient.run_script W d g s) = Some e).
Proof.
  intros Hg. induction d as [r|upd k IH|k IH]; intros s; simpl.
  - split; [done|]. intros Hback. inversion Hback.
  - destruct (IH (upd (fst s)) (upd (fst s), snd s)) as [Hlog Hres].
    split; [exact Hlog|]. intros Hback. apply Hres.
    inversion Hback as [|upd' k' Hk]; subst. apply Hk.
  - destruct (Hg s) as [Hr Hlog]. destruct (g s) as [r s']. simpl in Hr, Hlog.
    destruct (IH r s') as [Hlog' _]. split; [by rewrite Hlog'|].
    intros Hback. inversion Hback as [Hk|]. rewrite <- Hk in *. exact Hr.
Qed.

Lemma authorized_status_error client f e s :
  snd (fst (auth_Status client (fst s))) = Some e ->
  fst (authorized client f s) = Some e
  ∧ tclient.taskCalls (snd (snd (authorized client f s))) = tclient.taskCalls (snd s).
Proof.
  intros Hst. unfold tclient.authorized, tclient.perform.
  destruct (auth_Status client (fst s)) as [[status err] w'].
  simpl in Hst. subst err. simpl. split; [done|apply taskCalls_status].
Qed.


Lemma run_script_authorized_result client f (d : tclient.RunScript W) :
  (∀ w, fst (auth_Status client w) = (mkStatus true, None)) ->
  tclient.HandsBack W d ->
  ∀ s, ∃ w, fst (tclient.run_script W d (authorized client f) s) = fst (f w)
            ∧ fst (snd (tclient.run_script W d (authorized client f) s)) = snd (f w).
Proof.
  intros Hst. induction 1 as [|upd k _ IH]; intros s; simpl.
  - rewrite (authorized_calls_task W auth_Status client f s (Hst (fst s))). simpl.
    by eexists.
  - apply IH.
Qed.


End GateFacts.

Lemma New_client_settings_witness :
  ∃ c, fst (fixtures.New_ok fixtures.theContext
              (tclient.mkOptions 17 "hash" 3 [] "socks5://localhost:1080" "pool.ntp.org"
                 30000000000%Z "" None)) = Some c
       ∧ (telegram.appID c = 17%Z ∧ telegram.appHash c = "hash")
       ∧ (telegram.RetryInterval (telegram.opts c) = 5000000000%Z
          ∧ telegram.MaxRetries (telegram.opts c) = (-1)%Z
          ∧ telegram.DialTimeout (telegram.opts c) = 10000000000%Z)
       ∧ (backoff.MaxElapsedTime (telegram.ReconnectionBackoff (telegram.opts c) tt)
          = 30000000000%Z
          ∧ backoff.MaxInterval (telegram.ReconnectionBackoff (telegram.opts c) tt)
            = 10000000000%Z)
       ∧ (∃ id, fixtures.NewNTP_ok "pool.ntp.org" = (id, None)
                ∧ telegram.Clock_ (telegram.opts c) = telegram.clock_Network id)
       ∧ (∃ d, fixtures.NewProxy_ok "socks5://localhost:1080" = (d, None)
               ∧ telegram.Resolver_ (telegram.opts c)
                 = telegram.dcs_Plain (telegram.proxyDialContext d)).
Proof.
  eexists. split; [reflexivity|].
  apply (New_client_settings fixtures.theBackOff fixtures.NewNTP_ok fixtures.NewProxy_ok
           fixtures.StoreSession_keep fixtures.theDevice fixtures.theContext
           (tclient.mkOptions 17 "hash" 3 [] "socks5://localhost:1080" "pool.ntp.org"
              30000000000%Z "" None)).
  reflexivity.
Defined.



Lemma walk_result_witness :
  fixtures.walk_clips ["clips"] ["mp4"; "txt"] ["txt"]
  = ([up.mkFile "clips/video.mp4" "clips/video.thumb"], None).
Proof.
  unfold fixtures.walk_clips.
  rewrite (walk_result fixtures.UploadThumbExt fixtures.AddPrefixDot fixtures.filterMap_New
             fixtures.clips_exists fixtures.clips_visits ["clips"] ["mp4"; "txt"] ["txt"]).
  - vm_compute. reflexivity.
  - vm_compute. repeat constructor.
Defined.

(** A constructor that fails stops [New] with its own error under the
    message of its step, also when a later step would fail too. *)
Example New_first_failure_wins :
  tclient.New fixtures.theBackOff fixtures.NewNTP_down
    (fun _ => (0, Some (foreignError 9))) fixtures.StoreSession_keep fixtures.theDevice
    fixtures.theContext
    (tclient.mkOptions 17 "hash" 3 [] "socks5://localhost:1080" "pool.ntp.org" 0%Z "" None)
  = (None, Some (wrapError (foreignError 7) "create network clock"))
  ∧ tclient.New fixtures.theBackOff fixtures.NewNTP_ok
      (fun _ => (0, Some (foreignError 9))) fixtures.StoreSession_keep fixtures.theDevice
      fixtures.theContext
      (tclient.mkOptions 17 "hash" 3 [] "socks5://localhost:1080" "pool.ntp.org" 0%Z "" None)
    = (None, Some (wrapError (foreignError 9) "get dialer")).
Proof. split; reflexivity. Qed.
